(** * The synthetic feasibility scoring component

    A shallow embedding of
    [reinvent_plugins/components/comp_synthetic_feasibility.py]:
    the parameter binding of [SyntheticFeasibility.__init__], the
    per-endpoint loop of [SyntheticFeasibility.__call__] and the response
    parser [SyntheticFeasibility._parse_response].

    Python values that cross the component's boundary are modelled as the
    code sees them: a parsed JSON body is a [Json] tree, a NumPy [float32]
    array is a list of IEEE 754 values ([spec_float], rounded with
    [prec = 24], [emax = 128]), an exception is a value of [exn], and the
    network is a state-passing oracle that answers every POST. *)

From Stdlib Require Import ZArith Ascii String List Bool Lia DecimalString.
From Stdlib Require Import Floats.SpecFloat.
From stdpp Require Import base list strings.

Set Warnings "-register-all".
Local Open Scope Z_scope.

(** ** Python exceptions and results *)

(** The subclasses of [requests.exceptions.RequestException] that the
    transport can raise.  [JSONDecodeError] is the one [Response.json]
    raises on a body that is not JSON; it derives from [RequestException]
    (through [InvalidJSONError]). *)
Inductive request_exception : Type :=
  | ConnectionError
  | Timeout
  | InvalidURL
  | JSONDecodeError.

Inductive exn : Type :=
  | RequestException (k : request_exception)
  | ValueError (msg : string)
  | TypeError
  | KeyError
  | AttributeError
  | OverflowError.

(** What evaluating a Python expression gives: a value, or a raised
    exception. *)
Inductive result (A : Type) : Type :=
  | Ok (a : A)
  | Raise (e : exn).
Arguments Ok {A} a.
Arguments Raise {A} e.

Definition rbind {A B : Type} (r : result A) (k : A -> result B) : result B :=
  match r with
  | Ok a => k a
  | Raise e => Raise e
  end.

(** [try: body  except classes: handler], on a pure computation. *)
Definition rtry {A : Type} (body : result A) (catches : exn -> bool)
    (handler : result A) : result A :=
  match body with
  | Ok a => Ok a
  | Raise e => if catches e then handler else Raise e
  end.

Declare Scope result_scope.
Delimit Scope result_scope with res.
Notation "'do' x <- c ; k" := (rbind c (fun x => k))
  (at level 10, x name, c at level 100, k at level 200) : result_scope.

(** [except requests.exceptions.RequestException] *)
Definition is_RequestException (e : exn) : bool :=
  match e with
  | RequestException _ => true
  | _ => false
  end.

(** [except (ValueError, TypeError, KeyError)] *)
Definition is_ValueError_TypeError_KeyError (e : exn) : bool :=
  match e with
  | ValueError _ | TypeError | KeyError => true
  | RequestException JSONDecodeError => true (* also a json.JSONDecodeError, a ValueError *)
  | _ => false
  end.

(** ** JSON values, as [response.json()] returns them *)

(** Python parses a JSON number without fraction or exponent to an [int]
    of any size, every other number to a [float] (binary64), [null] to
    [None], an array to a [list] and an object to a [dict], here the list
    of its items, every key once. *)
Inductive Json : Type :=
  | JNull
  | JBool (b : bool)
  | JInt (z : Z)
  | JFloat (f : spec_float)
  | JStr (s : string)
  | JList (l : list Json)
  | JDict (items : list (string * Json)).

(** [x is None] *)
Definition is_None (x : Json) : bool :=
  match x with
  | JNull => true
  | _ => false
  end.

(** [isinstance(x, list)] *)
Definition isinstance_list (x : Json) : bool :=
  match x with
  | JList _ => true
  | _ => false
  end.

Fixpoint dict_lookup (key : string) (items : list (string * Json)) : option Json :=
  match items with
  | [] => None
  | (k, v) :: rest => if String.eqb k key then Some v else dict_lookup key rest
  end.

(** [x.get(key)]: only a [dict] has the method; a missing key gives
    [None]. *)
Definition get (x : Json) (key : string) : result Json :=
  match x with
  | JDict items =>
      match dict_lookup key items with
      | Some v => Ok v
      | None => Ok JNull
      end
  | _ => Raise AttributeError
  end.

(** ** Floating-point numbers *)

(** A Python [float] is a binary64 value, an element of the result array
    a binary32 value; both are [spec_float]s, in the format their
    precision and exponent range give. *)
Definition float64 : Type := spec_float.
Definition float32 : Type := spec_float.

Definition is_float32 (x : spec_float) : bool := valid_binary 24 128 x.
Definition is_float64 (x : spec_float) : bool := valid_binary 53 1024 x.

(** [np.nan] *)
Definition nan : spec_float := S754_nan.

(** [float(n)] for an [int]: the nearest binary64 value, ties to even,
    and [OverflowError] when it is out of range. *)
Definition float_of_int (z : Z) : result float64 :=
  match binary_normalize 53 1024 z 0 false with
  | S754_infinity _ => Raise OverflowError
  | f => Ok f
  end.

(** Storing a Python [float] into a [float32] array: NumPy casts it to the
    nearest binary32 value, ties to even; a value out of range becomes an
    infinity. *)
Definition float32_of_float64 (f : float64) : float32 :=
  match f with
  | S754_finite s m e => binary_round 24 128 s m e
  | _ => f
  end.

(** Reading an element back as a Python [float]: every binary32 value is
    a binary64 value. *)
Definition float64_of_float32 (f : float32) : float64 :=
  match f with
  | S754_finite s m e => binary_round 53 1024 s m e
  | _ => f
  end.

(** [np.full(n, np.nan, dtype=np.float32)] *)
Definition np_full (n : nat) (x : float32) : list float32 := replicate n x.

(** ** Strings *)

(** [str(n)] of an [int], as an f-string formats it. *)
Definition str_of_int (z : Z) : string := NilZero.string_of_int (Z.to_int z).

Definition newline : string := String (ascii_of_nat 10) EmptyString.
Definition squote : ascii := ascii_of_nat 39.
Definition dquote : ascii := ascii_of_nat 34.
Definition backslash : ascii := ascii_of_nat 92.

Definition hexdigit (n : nat) : ascii :=
  nth n (list_ascii_of_string "0123456789abcdef") "0"%char.

(** One byte of [repr(b)] for a [bytes] object [b] quoted with [quote]. *)
Definition repr_byte (quote : ascii) (c : Byte.byte) : string :=
  let a := ascii_of_byte c in
  let n := Byte.to_nat c in
  if Ascii.eqb a quote || Ascii.eqb a backslash then String backslash (String a EmptyString)
  else if Nat.eqb n 9 then String backslash "t"
  else if Nat.eqb n 10 then String backslash "n"
  else if Nat.eqb n 13 then String backslash "r"
  else if Nat.ltb n 32 || Nat.leb 127 n then
    String backslash (String "x" (String (hexdigit (n / 16)) (String (hexdigit (n mod 16)) EmptyString)))
  else String a EmptyString.

(** [repr(b)], the text an f-string puts for a [bytes] value: the bytes
    between single quotes, or double quotes when [b] holds a single quote
    and no double quote. *)
Definition repr_bytes (b : list Byte.byte) : string :=
  let has (q : ascii) := existsb (fun c => Ascii.eqb (ascii_of_byte c) q) b in
  let quote := if has squote && negb (has dquote) then dquote else squote in
  String "b" (String quote (String.concat EmptyString (map (repr_byte quote) b)))
    +:+ String quote EmptyString.

(** [sub] occurs in [s]. *)
Definition contains (s sub : string) : Prop :=
  exists pre post : string, s = pre +:+ sub +:+ post.

(** ** The HTTP layer: what [requests.post] is given and what it gives *)

Record Request : Type := {
  method : string;
  url : string;
  json_body : Json;
  headers : list (string * string);
  timeout : Z
}.

(** The attributes of a [requests.Response] the component reads;
    [json] is the outcome of calling [response.json()]. *)
Record Response : Type := {
  status_code : Z;
  reason : string;
  content : list Byte.byte;
  text : string;
  json : result Json
}.

(** ** Parameters and the component *)

(** The pydantic dataclass [Parameters]: every field is a list, or [None]
    when it is not given. *)
Record Parameters : Type := {
  server_url : option (list string);
  server_port : option (list Z);
  server_endpoint : option (list string)
}.

Definition DEFAULT_SERVER_URL : string := "http://localhost".
Definition DEFAULT_SERVER_PORT : Z := 5000.
Definition DEFAULT_SERVER_ENDPOINT : string := "synthetic_feasibility_surrogate".

(** [x or d] for an optional list [x]: [None] and the empty list are
    falsy. *)
Definition or_default {A : Type} (x : option (list A)) (d : list A) : list A :=
  match x with
  | None => d
  | Some [] => d
  | Some (a :: l) => a :: l
  end.

(** The attributes [__init__] sets. *)
Record SyntheticFeasibility : Type := {
  server_urls : list string;
  server_ports : list Z;
  server_endpoints : list string;
  smiles_type : string;
  number_of_endpoints : nat
}.

Definition __init__ (params : Parameters) : SyntheticFeasibility :=
  let server_urls := or_default (server_url params) [DEFAULT_SERVER_URL] in
  {| server_urls := server_urls;
     server_ports := or_default (server_port params) [DEFAULT_SERVER_PORT];
     server_endpoints := or_default (server_endpoint params) [DEFAULT_SERVER_ENDPOINT];
     smiles_type := "rdkit_smiles";
     number_of_endpoints := length server_urls |}.

(** [zip(a, b, c)]: stops with the shortest list. *)
Fixpoint zip3 {A B C : Type} (a : list A) (b : list B) (c : list C) : list (A * B * C) :=
  match a, b, c with
  | x :: a', y :: b', z :: c' => (x, y, z) :: zip3 a' b' c'
  | _, _, _ => []
  end.

(** Modelled from the spec: the container class [ComponentResults] of
    [component_results.py], which is not among the sources; the ResultSet is
    an ordered collection of ScoreVectors, one per endpoint. *)
Record ComponentResults : Type := {
  scores : list (list float32)
}.

(** [f"{url}:{port}/{endpoint}"] *)
Definition full_url (url : string) (port : Z) (endpoint : string) : string :=
  url +:+ ":" +:+ str_of_int port +:+ "/" +:+ endpoint.

(** The call [requests.post(full_url, json={"smiles": smilies},
    headers={"Content-Type": "application/json"}, timeout=30)]. *)
Definition post_request (full_url : string) (smilies : list string) : Request :=
  {| method := "POST";
     url := full_url;
     json_body := JDict [("smiles", JList (map JStr smilies))];
     headers := [("Content-Type", "application/json")];
     timeout := 30 |}.

(** The message of the [ValueError] raised for a status other than 200. *)
Definition api_failed_message (response : Response) : string :=
  "Synthetic feasibility API failed." +:+ newline +:+
  "Status Code: " +:+ str_of_int (status_code response) +:+ newline +:+
  "Reason: (" +:+ reason response +:+ ")" +:+ newline +:+
  "Response content: " +:+ repr_bytes (content response) +:+ newline +:+
  "Response text: " +:+ text response.

(** A network for examples: every address answers as the table says, and
    an address that is not in the table refuses the connection. *)
Fixpoint table_post (table : list (string * result Response)) (w : unit)
    (req : Request) : result Response * unit :=
  match table with
  | [] => (Raise (RequestException ConnectionError), w)
  | (address, answer) :: rest =>
      if String.eqb address (url req) then (answer, w) else table_post rest w req
  end.

(** A stand-in for Python's parsing of a [str] by [float], for examples: it
    reads [nan] and nothing else. *)
Definition nan_only_float_of_str (s : string) : option float64 :=
  if String.eqb s "nan" then Some S754_nan else None.

(** A field of [Parameters] that is not set: [None], or an empty list. *)
Definition unset {A : Type} (x : option (list A)) : bool :=
  match x with
  | None | Some [] => true
  | Some (_ :: _) => false
  end.

(** The binary64 value nearest to the decimal 0.5760770598287769, the
    prediction of the docstring of [_parse_response]. *)
Definition prediction_example : float64 := S754_finite false 5188840863963141 (-53).

(** ** Example scenarios *)

Definition ok_response (body : Json) : Response :=
  {| status_code := 200; reason := "OK"; content := []; text := EmptyString;
     json := Ok body |}.

(** A 500 answer whose body is the four bytes of [oops]. *)
Definition error_500 : Response :=
  {| status_code := 500; reason := "Internal Server Error";
     content := [Byte.x6f; Byte.x6f; Byte.x70; Byte.x73]; text := "oops";
     json := Raise (RequestException JSONDecodeError) |}.

(** The body of the docstring of [_parse_response], cut to its first
    entry. *)
Definition docstring_body : Json :=
  JList [JDict [("smiles", JStr "C1=CC=CC=C1"); ("prediction", JFloat prediction_example)]].

(** Three servers: [b] scores the batch, [c] answers 500, and [a], which is
    not in the table, cannot be reached. *)
Definition example_network : list (string * result Response) :=
  [("http://b:8001/score", Ok (ok_response docstring_body));
   ("http://c:8002/score", Ok error_500)].

Definition endpoints_a_b : Parameters :=
  {| server_url := Some ["http://a"; "http://b"];
     server_port := Some [8000; 8001];
     server_endpoint := Some ["score"; "score"] |}.

Definition endpoints_a_c_b : Parameters :=
  {| server_url := Some ["http://a"; "http://c"; "http://b"];
     server_port := Some [8000; 8002; 8001];
     server_endpoint := Some ["score"; "score"; "score"] |}.

(** Lists of lengths 2, 1 and 3. *)
Definition mismatched_lists : Parameters :=
  {| server_url := Some ["http://b"; "http://a"];
     server_port := Some [8001];
     server_endpoint := Some ["score"; "score"; "score"] |}.

(** Lists of lengths 2, 0 and 2: the list of ports is given, and empty. *)
Definition empty_port_list : Parameters :=
  {| server_url := Some ["http://a"; "http://b"];
     server_port := Some [];
     server_endpoint := Some ["x"; "y"] |}.

Definition nothing_configured : Parameters :=
  {| server_url := None; server_port := None; server_endpoint := None |}.

(** A 200 answer whose body, the one byte [<], is not JSON. *)
Definition unreadable_response : Response :=
  {| status_code := 200; reason := "OK"; content := [Byte.x3c]; text := "<";
     json := Raise (RequestException JSONDecodeError) |}.

(** Two servers: [d] answers with the unreadable body, [b] scores the
    batch. *)
Definition unreadable_network : list (string * result Response) :=
  [("http://d:8003/score", Ok unreadable_response);
   ("http://b:8001/score", Ok (ok_response docstring_body))].

Definition endpoints_d_b : Parameters :=
  {| server_url := Some ["http://d"; "http://b"];
     server_port := Some [8003; 8001];
     server_endpoint := Some ["score"; "score"] |}.

Definition endpoint_a : Parameters :=
  {| server_url := Some ["http://a"]; server_port := Some [8000];
     server_endpoint := Some ["score"] |}.

Definition endpoint_b : Parameters :=
  {| server_url := Some ["http://b"]; server_port := Some [8001];
     server_endpoint := Some ["score"] |}.

Section Component.

(** Python's [float(s)] for a [str]: the value [s] denotes, or [None] when
    [s] is no number (a [ValueError]).  The builtin is not part of the
    component. *)
Variable float_of_str : string -> option float64.

(** [float(x)] *)
Definition float (x : Json) : result float64 :=
  match x with
  | JFloat f => Ok f
  | JInt z => float_of_int z
  | JBool b => float_of_int (if b then 1 else 0)
  | JStr s =>
      match float_of_str s with
      | Some f => Ok f
      | None => Raise (ValueError "could not convert string to float")
      end
  | JNull | JList _ | JDict _ => Raise TypeError
  end.

(** The body of the loop of [_parse_response] for entry [i], with its
    [try] ... [except (ValueError, TypeError, KeyError): pass]. *)
Definition parse_entry (results : list float32) (i : nat) (entry : Json)
    : result (list float32) :=
  rtry
    (do prediction <- get entry "prediction";
     if negb (is_None prediction)
     then (do x <- float prediction; Ok (<[i := float32_of_float64 x]> results))
     else Ok results)%res
    is_ValueError_TypeError_KeyError
    (Ok results).

(** [for i, result in enumerate(response_json)], from index [i] on. *)
Fixpoint parse_loop (entries : list Json) (i data_size : nat)
    (results : list float32) : result (list float32) :=
  match entries with
  | [] => Ok results
  | entry :: rest =>
      if (data_size <=? i)%nat then Ok results
      else (do results' <- parse_entry results i entry;
            parse_loop rest (S i) data_size results')%res
  end.

Definition _parse_response (response_json : Json) (data_size : nat)
    : result (list float32) :=
  let results := np_full data_size nan in
  if negb (isinstance_list response_json) then Ok results
  else
    match response_json with
    | JList entries => parse_loop entries 0 data_size results
    | _ => Ok results
    end.

(** The network: [post w req] is what the POST of [req] gives in the
    world [w], a response or a raised exception, and the world after it. *)
Variable World : Type.
Variable post : World -> Request -> result Response * World.

(** The state a call runs in: the world, and the requests sent so far. *)
Record Net : Type := {
  world : World;
  sent : list Request
}.

Definition M (A : Type) : Type := Net -> result A * Net.

Definition ret {A : Type} (a : A) : M A := fun s => (Ok a, s).

Definition raise {A : Type} (e : exn) : M A := fun s => (Raise e, s).

Definition lift {A : Type} (r : result A) : M A := fun s => (r, s).

Definition bind {A B : Type} (c : M A) (k : A -> M B) : M B :=
  fun s =>
    match c s with
    | (Ok a, s') => k a s'
    | (Raise e, s') => (Raise e, s')
    end.

(** [try: body  except classes: handler] *)
Definition try_except {A : Type} (body : M A) (catches : exn -> bool)
    (handler : M A) : M A :=
  fun s =>
    match body s with
    | (Ok a, s') => (Ok a, s')
    | (Raise e, s') => if catches e then handler s' else (Raise e, s')
    end.

Declare Scope io_scope.
Delimit Scope io_scope with io.
Notation "'do' x <- c ; k" := (bind c (fun x => k))
  (at level 10, x name, c at level 100, k at level 200) : io_scope.

Definition requests_post (full_url : string) (smilies : list string) : M Response :=
  fun s =>
    let req := post_request full_url smilies in
    let (answer, w) := post (world s) req in
    (answer, {| world := w; sent := sent s ++ [req] |}).

(** One turn of the loop of [__call__]: the endpoint is queried and its
    ScoreVector appended to [scores]. *)
Definition query_endpoint (smilies : list string) (scores : list (list float32))
    (ep : string * Z * string) : M (list (list float32)) :=
  let '(url, port, endpoint) := ep in
  let full_url := full_url url port endpoint in
  try_except
    (do response <- requests_post full_url smilies;
     do _ <- (if negb (status_code response =? 200)
              then raise (ValueError (api_failed_message response))
              else ret tt);
     do response_json <- lift (json response);
     do results <- lift (_parse_response response_json (length smilies));
     ret (scores ++ [results]))%io
    is_RequestException
    (let results := np_full (length smilies) nan in
     ret (scores ++ [results])).

Fixpoint for_endpoints (eps : list (string * Z * string)) (smilies : list string)
    (scores : list (list float32)) : M (list (list float32)) :=
  match eps with
  | [] => ret scores
  | ep :: rest =>
      (do scores' <- query_endpoint smilies scores ep;
       for_endpoints rest smilies scores')%io
  end.

(** The triples the loop of [__call__] runs over. *)
Definition endpoints (self : SyntheticFeasibility) : list (string * Z * string) :=
  zip3 (server_urls self) (server_ports self) (server_endpoints self).

(** [__call__], on the batch the [normalize_smiles] decorator hands it. *)
Definition __call__ (self : SyntheticFeasibility) (smilies : list string)
    : M ComponentResults :=
  (do scores <- for_endpoints (endpoints self) smilies [];
   ret {| scores := scores |})%io.

(** ** Derived notions, used to state what the code does *)

(** What one response entry does to its slot: a value is stored
    ([Some v]), the slot is left as it is ([None]), or an exception leaves
    the parser. *)
Definition entry_outcome (entry : Json) : result (option float32) :=
  rtry
    (do prediction <- get entry "prediction";
     if negb (is_None prediction)
     then (do x <- float prediction; Ok (Some (float32_of_float64 x)))
     else Ok None)%res
    is_ValueError_TypeError_KeyError
    (Ok None).

(** The value an entry stores, if it stores one. *)
Definition entry_value (entry : Json) : option float32 :=
  match entry_outcome entry with
  | Ok o => o
  | Raise _ => None
  end.

(** The content of the slot of an entry after a parse that returns. *)
Definition slot_of (entry : Json) : float32 :=
  match entry_value entry with
  | Some v => v
  | None => nan
  end.

(** A record the parser handles: a [dict] whose prediction, when it is an
    [int], is in the range of [float]. *)
Definition is_record (entry : Json) : bool :=
  match entry_outcome entry with
  | Ok _ => true
  | Raise _ => false
  end.

(** The ScoreVector an endpoint gets from the answer to its POST: the body
    of the [try] of [__call__] after the request, with its handler. *)
Definition answer_vector (smilies : list string) (answer : result Response)
    : result (list float32) :=
  rtry
    (do response <- answer;
     do _ <- (if negb (status_code response =? 200)
              then Raise (ValueError (api_failed_message response))
              else Ok tt);
     do response_json <- json response;
     _parse_response response_json (length smilies))%res
    is_RequestException
    (Ok (np_full (length smilies) nan)).

(** The request [__call__] sends to an endpoint. *)
Definition request_for (smilies : list string) (ep : string * Z * string) : Request :=
  let '(url, port, endpoint) := ep in
  post_request (full_url url port endpoint) smilies.

(** * Facts *)

(** ** Rounding gives a value of the format *)

Section Rounding.

Variables prec emax : Z.
Hypothesis prec_pos : 0 < prec.

Lemma digits2_pos_size (m : positive) : digits2_pos m = Pos.size m.
Proof. induction m; simpl; congruence. Qed.

Lemma Zdigits2_log2 (m : Z) : 0 < m -> Zdigits2 m = Z.log2 m + 1.
Proof.
  destruct m as [|p|p]; try lia. intros _. simpl.
  rewrite digits2_pos_size. destruct p; simpl; lia.
Qed.

Lemma Zdigits2_nonneg (m : Z) : 0 <= Zdigits2 m.
Proof. destruct m; simpl; lia. Qed.

Lemma shr_m_shr_1 (r : shr_record) :
  0 <= shr_m r -> shr_m (shr_1 r) = Z.shiftr (shr_m r) 1.
Proof.
  destruct r as [m b s]. simpl. intros Hm.
  rewrite <- Z.div2_spec.
  destruct m as [|[p|p|]|p]; simpl; try reflexivity; lia.
Qed.

Lemma shr_m_iter (p : positive) : forall r : shr_record,
  0 <= shr_m r -> shr_m (SpecFloat.iter_pos shr_1 p r) = Z.shiftr (shr_m r) (Zpos p).
Proof.
  induction p as [p IH|p IH|]; intros r Hr; simpl SpecFloat.iter_pos.
  - assert (H1 : 0 <= shr_m (shr_1 r)) by (rewrite shr_m_shr_1, Z.shiftr_nonneg; lia).
    assert (H2 : 0 <= shr_m (SpecFloat.iter_pos shr_1 p (shr_1 r))) by (rewrite IH, Z.shiftr_nonneg; lia).
    rewrite IH, IH, shr_m_shr_1 by assumption.
    rewrite !Z.shiftr_shiftr by lia. f_equal. lia.
  - assert (H2 : 0 <= shr_m (SpecFloat.iter_pos shr_1 p r)) by (rewrite IH, Z.shiftr_nonneg; lia).
    rewrite IH, IH by assumption.
    rewrite !Z.shiftr_shiftr by lia. f_equal. lia.
  - apply shr_m_shr_1; assumption.
Qed.

(** [shr_fexp] shifts the mantissa right by the distance to the exponent
    the format asks for, and not at all when that exponent is not larger. *)
Lemma shr_fexp_spec (m e : Z) (l : location) :
  0 <= m ->
  let n := Z.max 0 (fexp prec emax (Zdigits2 m + e) - e) in
  shr_m (fst (shr_fexp prec emax m e l)) = Z.shiftr m n /\
  snd (shr_fexp prec emax m e l) = e + n.
Proof.
  intros Hm n. unfold shr_fexp, shr. subst n.
  destruct (fexp prec emax (Zdigits2 m + e) - e) as [|p|p] eqn:E; simpl fst; simpl snd.
  - rewrite Z.shiftr_0_r. split; [destruct l as [|[]]; reflexivity | lia].
  - rewrite shr_m_iter by (destruct l as [|[]]; simpl; lia).
    replace (Z.max 0 (Z.pos p)) with (Z.pos p) by lia.
    split; [destruct l as [|[]]; reflexivity | lia].
  - replace (Z.max 0 (Z.neg p)) with 0 by lia. rewrite Z.shiftr_0_r.
    split; [destruct l as [|[]]; reflexivity | lia].
Qed.

Lemma round_nearest_even_range (m : Z) (l : location) :
  round_nearest_even m l = m \/ round_nearest_even m l = m + 1.
Proof. destruct l as [|[]]; simpl; auto. destruct (Z.even m); auto. Qed.

Lemma Zdigits2_shiftr (m n : Z) :
  0 <= m -> 0 <= n -> Zdigits2 (Z.shiftr m n) = Z.max 0 (Zdigits2 m - n).
Proof.
  intros Hm Hn.
  destruct (Z.eq_dec m 0) as [->|Hne].
  - rewrite Z.shiftr_0_l. simpl. lia.
  - assert (Hpos : 0 < m) by lia.
    rewrite (Zdigits2_log2 m Hpos).
    destruct (Z_lt_le_dec (Z.log2 m) n) as [Hlt|Hle].
    + assert (Z.shiftr m n = 0) as -> by (apply Z.shiftr_eq_0_iff; right; lia).
      simpl. lia.
    + assert (Hs : 0 < Z.shiftr m n).
      { assert (Z.shiftr m n <> 0) by (rewrite Z.shiftr_eq_0_iff; lia).
        pose proof (proj2 (Z.shiftr_nonneg m n) Hm). lia. }
      rewrite (Zdigits2_log2 _ Hs), Z.log2_shiftr by assumption. lia.
Qed.

Lemma Zdigits2_succ (m : Z) :
  0 <= m -> Zdigits2 m <= Zdigits2 (m + 1) <= Zdigits2 m + 1.
Proof.
  intros Hm. destruct (Z.eq_dec m 0) as [->|Hne]; [simpl; lia|].
  rewrite !Zdigits2_log2 by lia.
  pose proof (Z.log2_succ_le m). pose proof (Z.log2_le_mono m (m + 1)).
  unfold Z.succ in *. lia.
Qed.

Lemma Zdigits2_iter_xO (m d : positive) :
  Zpos (digits2_pos (Pos.iter xO m d)) = Zpos (digits2_pos m) + Zpos d.
Proof.
  revert m. induction d using Pos.peano_ind; intros m.
  - simpl; lia.
  - rewrite Pos.iter_succ. simpl digits2_pos. rewrite Pos2Z.inj_succ, IHd. lia.
Qed.

(** Rounding a mantissa that is not below the exponent of the format gives
    zero, an infinity, or a mantissa of at most [prec] digits at the
    exponent its size asks for. *)
Lemma binary_round_aux_valid (s : bool) (m e : Z) (l : location) :
  0 <= m ->
  e <= fexp prec emax (Zdigits2 m + e) ->
  valid_binary prec emax (binary_round_aux prec emax s m e l) = true.
Proof.
  intros Hm He. unfold binary_round_aux.
  destruct (shr_fexp_spec m e l Hm) as [Hm1 He1].
  destruct (shr_fexp prec emax m e l) as [r1 e1]. simpl fst in *; simpl snd in *.
  set (m2 := round_nearest_even (shr_m r1) (loc_of_shr_record r1)).
  assert (Hm1nn : 0 <= shr_m r1) by (rewrite Hm1; apply Z.shiftr_nonneg; exact Hm).
  assert (Hm2 : m2 = shr_m r1 \/ m2 = shr_m r1 + 1) by apply round_nearest_even_range.
  assert (Hm2nn : 0 <= m2) by lia.
  assert (Hd1 : Zdigits2 (shr_m r1)
                = Z.max 0 (Zdigits2 m - Z.max 0 (fexp prec emax (Zdigits2 m + e) - e))).
  { rewrite Hm1. apply Zdigits2_shiftr; lia. }
  assert (Hd2 : Zdigits2 (shr_m r1) <= Zdigits2 m2 <= Zdigits2 (shr_m r1) + 1).
  { destruct Hm2 as [-> | ->]; [lia | apply Zdigits2_succ; assumption]. }
  destruct (shr_fexp_spec m2 e1 loc_Exact Hm2nn) as [Hm3 He3].
  destruct (shr_fexp prec emax m2 e1 loc_Exact) as [r3 e3]. simpl fst in *; simpl snd in *.
  assert (Hd3 : Zdigits2 (shr_m r3)
                = Z.max 0 (Zdigits2 m2 - Z.max 0 (fexp prec emax (Zdigits2 m2 + e1) - e1))).
  { rewrite Hm3. apply Zdigits2_shiftr; lia. }
  destruct (shr_m r3) as [|p|p] eqn:E3; try reflexivity.
  destruct (e3 <=? emax - prec) eqn:Eb; try reflexivity.
  simpl. unfold bounded, canonical_mantissa. rewrite Eb, andb_true_r.
  apply Z.eqb_eq. change (Z.pos (digits2_pos p)) with (Zdigits2 (Z.pos p)).
  pose proof (Zdigits2_nonneg m). pose proof (Zdigits2_nonneg m2).
  assert (0 < Zdigits2 (Z.pos p)) by (simpl; lia).
  unfold fexp, emin in *. lia.
Qed.

Lemma binary_round_valid (s : bool) (m : positive) (e : Z) :
  valid_binary prec emax (binary_round prec emax s m e) = true.
Proof.
  unfold binary_round, shl_align.
  destruct (fexp prec emax (Z.pos (digits2_pos m) + e) - e) as [|d|d] eqn:E;
    apply binary_round_aux_valid; try lia; simpl Zdigits2.
  - lia.
  - lia.
  - rewrite Zdigits2_iter_xO. unfold fexp, emin in *. lia.
Qed.

End Rounding.

Lemma float32_of_float64_valid (f : float64) : is_float32 (float32_of_float64 f) = true.
Proof.
  destruct f as [s|s| |s m e]; try reflexivity.
  apply binary_round_valid. lia.
Qed.

(** ** The parser *)

Lemma float_of_int_raises (z : Z) (e : exn) :
  float_of_int z = Raise e -> e = OverflowError.
Proof.
  unfold float_of_int. destruct (binary_normalize 53 1024 z 0 false); congruence.
Qed.

Lemma float_raises (x : Json) (e : exn) :
  float x = Raise e ->
  e = OverflowError \/ is_ValueError_TypeError_KeyError e = true.
Proof.
  destruct x as [|b|z|f|s|l|items]; simpl; intros H;
    try (left; eapply float_of_int_raises; eassumption);
    try (right; injection H as <-; reflexivity);
    try discriminate.
  destruct (float_of_str s); [discriminate | right; injection H as <-; reflexivity].
Qed.

Lemma get_raises (x : Json) (key : string) (e : exn) :
  get x key = Raise e -> e = AttributeError /\ forall items, x <> JDict items.
Proof.
  destruct x; simpl; intros H; try (injection H as <-; split; [reflexivity | discriminate]).
  destruct (dict_lookup key items); discriminate.
Qed.

(** Only two exceptions leave the handling of an entry: the
    [AttributeError] of an entry without [get], and the [OverflowError]
    of an [int] too large for a [float]. *)
Lemma entry_outcome_raises (entry : Json) (e : exn) :
  entry_outcome entry = Raise e -> e = AttributeError \/ e = OverflowError.
Proof.
  unfold entry_outcome, rtry, rbind.
  destruct (get entry "prediction") as [p|x] eqn:Hget.
  - destruct (is_None p); simpl; [discriminate|].
    destruct (float p) as [v|x] eqn:Hf; [discriminate|].
    destruct (float_raises _ _ Hf) as [-> | Hc].
    + simpl. intros [= <-]. now right.
    + rewrite Hc. discriminate.
  - destruct (get_raises _ _ _ Hget) as [-> _]. simpl. intros [= <-]. now left.
Qed.

Lemma parse_entry_outcome (results : list float32) (i : nat) (entry : Json) :
  parse_entry results i entry =
  (do o <- entry_outcome entry;
   Ok (match o with Some v => <[i := v]> results | None => results end))%res.
Proof.
  unfold parse_entry, entry_outcome, rtry, rbind.
  destruct (get entry "prediction") as [p|x]; simpl.
  - destruct (is_None p); simpl; [reflexivity|].
    destruct (float p) as [v|x]; [reflexivity|].
    destruct (is_ValueError_TypeError_KeyError x); reflexivity.
  - destruct (is_ValueError_TypeError_KeyError x); reflexivity.
Qed.

Lemma entry_outcome_not_dict (entry : Json) :
  (forall items, entry <> JDict items) -> entry_outcome entry = Raise AttributeError.
Proof. destruct entry; intros H; try reflexivity. now destruct (H items). Qed.

Lemma entry_outcome_dict (items : list (string * Json)) :
  entry_outcome (JDict items) =
  match dict_lookup "prediction" items with
  | None | Some JNull => Ok None
  | Some prediction =>
      match float prediction with
      | Ok x => Ok (Some (float32_of_float64 x))
      | Raise e => if is_ValueError_TypeError_KeyError e then Ok None else Raise e
      end
  end.
Proof.
  unfold entry_outcome, rtry, rbind. simpl get.
  destruct (dict_lookup "prediction" items) as [p|]; [|reflexivity].
  destruct p as [|b|z|f|s|l|d]; try reflexivity; simpl.
  - destruct (float_of_int (if b then 1 else 0)); reflexivity.
  - destruct (float_of_int z); reflexivity.
  - destruct (float_of_str s); reflexivity.
Qed.

Lemma parse_entry_length (results r : list float32) (i : nat) (entry : Json) :
  parse_entry results i entry = Ok r -> length r = length results.
Proof.
  rewrite parse_entry_outcome. unfold rbind.
  destruct (entry_outcome entry) as [[v|]|]; intros [= <-];
    [apply length_insert | reflexivity].
Qed.

(** The loop, slot by slot: a slot from [i] on whose entry stores a value
    holds it, every other slot is as before. *)
Lemma parse_loop_lookup (entries : list Json) :
  forall (i data_size : nat) (results r : list float32),
  length results = data_size ->
  parse_loop entries i data_size results = Ok r ->
  length r = data_size /\
  forall j : nat, (j < data_size)%nat ->
    r !! j =
    if decide (i <= j)%nat
    then match entries !! (j - i)%nat ≫= entry_value with
         | Some v => Some v
         | None => results !! j
         end
    else results !! j.
Proof.
  induction entries as [|entry rest IH]; intros i n results r Hlen; simpl.
  - intros [= <-]. split; [assumption|]. intros j Hj.
    now destruct (decide (i <= j)%nat).
  - destruct (n <=? i)%nat eqn:Hni.
    + apply Nat.leb_le in Hni. intros [= <-]. split; [assumption|].
      intros j Hj. destruct (decide (i <= j)%nat); [lia | reflexivity].
    + apply Nat.leb_gt in Hni. unfold rbind.
      destruct (parse_entry results i entry) as [results'|] eqn:Hpe; [|discriminate].
      intros Hloop.
      pose proof (parse_entry_length _ _ _ _ Hpe) as Hlen'.
      destruct (IH (S i) n results' r ltac:(lia) Hloop) as [Hr Hslots].
      split; [assumption|]. intros j Hj. rewrite (Hslots j Hj).
      rewrite parse_entry_outcome in Hpe. unfold rbind in Hpe.
      destruct (entry_outcome entry) as [o|] eqn:Ho; [|discriminate].
      assert (Hv : entry_value entry = o) by (unfold entry_value; now rewrite Ho).
      injection Hpe as <-.
      destruct (decide (S i <= j)%nat) as [Hlt|Hge].
      * destruct (decide (i <= j)%nat); [|lia].
        replace (j - i)%nat with (S (j - S i)) by lia.
        change ((entry :: rest) !! S (j - S i)%nat) with (rest !! (j - S i)%nat).
        destruct (rest !! (j - S i)%nat ≫= entry_value); [reflexivity|].
        destruct o; [apply list_lookup_insert_ne; lia | reflexivity].
      * destruct (decide (i <= j)%nat) as [Hle|Hnle].
        -- assert (j = i) as -> by lia. rewrite Nat.sub_diag.
           change ((entry :: rest) !! 0%nat ≫= entry_value) with (entry_value entry).
           rewrite Hv.
           destruct o; [apply list_lookup_insert_eq; lia | reflexivity].
        -- destruct o; [apply list_lookup_insert_ne; lia | reflexivity].
Qed.

(** The loop never looks at an entry from position [data_size] on. *)
Lemma parse_loop_take (entries : list Json) :
  forall (i data_size : nat) (results : list float32),
  parse_loop entries i data_size results =
  parse_loop (take (data_size - i) entries) i data_size results.
Proof.
  induction entries as [|entry rest IH]; intros i n results.
  - now rewrite take_nil.
  - simpl. destruct (n <=? i)%nat eqn:Hni.
    + apply Nat.leb_le in Hni. replace (n - i)%nat with 0%nat by lia. reflexivity.
    + pose proof (proj1 (Nat.leb_gt _ _) Hni) as Hlt.
      replace (n - i)%nat with (S (n - S i)) by lia.
      simpl. rewrite Hni. unfold rbind.
      destruct (parse_entry results i entry); [apply IH | reflexivity].
Qed.

(** The loop returns when every entry it looks at is a record. *)
Lemma parse_loop_returns (entries : list Json) :
  forall (i data_size : nat) (results : list float32),
  forallb is_record (take (data_size - i) entries) = true ->
  exists r, parse_loop entries i data_size results = Ok r.
Proof.
  induction entries as [|entry rest IH]; intros i n results; simpl.
  - eauto.
  - destruct (n <=? i)%nat eqn:Hni; [eauto|].
    apply Nat.leb_gt in Hni. replace (n - i)%nat with (S (n - S i)) by lia.
    simpl. intros [Hrec Hrest]%andb_prop.
    rewrite parse_entry_outcome. unfold is_record in Hrec. unfold rbind.
    destruct (entry_outcome entry); [apply IH; assumption | discriminate].
Qed.

(** The loop raises only what the handling of an entry lets through. *)
Lemma parse_loop_raises (entries : list Json) :
  forall (i data_size : nat) (results : list float32) (e : exn),
  parse_loop entries i data_size results = Raise e ->
  e = AttributeError \/ e = OverflowError.
Proof.
  induction entries as [|entry rest IH]; intros i n results e; simpl; [discriminate|].
  destruct (n <=? i)%nat; [discriminate|].
  rewrite parse_entry_outcome. unfold rbind.
  destruct (entry_outcome entry) as [o|x] eqn:Ho.
  - apply IH.
  - intros [= <-]. eapply entry_outcome_raises; eassumption.
Qed.

Lemma _parse_response_list (entries : list Json) (data_size : nat) :
  _parse_response (JList entries) data_size =
  parse_loop entries 0 data_size (np_full data_size nan).
Proof. reflexivity. Qed.

Lemma _parse_response_length (response_json : Json) (data_size : nat) (r : list float32) :
  _parse_response response_json data_size = Ok r -> length r = data_size.
Proof.
  unfold _parse_response.
  destruct response_json; simpl;
    try (intros [= <-]; apply length_replicate).
  intros H. eapply parse_loop_lookup; [|exact H]. apply length_replicate.
Qed.

Lemma _parse_response_raises (response_json : Json) (data_size : nat) (e : exn) :
  _parse_response response_json data_size = Raise e ->
  is_RequestException e = false.
Proof.
  unfold _parse_response. destruct response_json; simpl; try discriminate.
  intros H. destruct (parse_loop_raises _ _ _ _ _ H) as [-> | ->]; reflexivity.
Qed.

(** ** The call *)

Lemma answer_vector_length (smilies : list string) (answer : result Response)
    (v : list float32) :
  answer_vector smilies answer = Ok v -> length v = length smilies.
Proof.
  unfold answer_vector, rtry, rbind.
  destruct answer as [response|x].
  - destruct (negb (status_code response =? 200)); simpl; [discriminate|].
    destruct (json response) as [j|x].
    + destruct (_parse_response j (length smilies)) as [r|x] eqn:Hp.
      * intros [= <-]. eapply _parse_response_length; eassumption.
      * rewrite (_parse_response_raises _ _ _ Hp). discriminate.
    + destruct (is_RequestException x); [|discriminate].
      intros [= <-]. apply length_replicate.
  - destruct (is_RequestException x); [|discriminate].
    intros [= <-]. apply length_replicate.
Qed.

(** One turn of the loop: the request is sent, whatever comes of it, and
    the vector the answer gives is appended. *)
Lemma query_endpoint_spec (smilies : list string) (scores : list (list float32))
    (ep : string * Z * string) (s : Net) :
  query_endpoint smilies scores ep s =
  let req := request_for smilies ep in
  let (answer, w) := post (world s) req in
  ((do v <- answer_vector smilies answer; Ok (scores ++ [v]))%res,
   {| world := w; sent := sent s ++ [req] |}).
Proof.
  destruct ep as [[u p] e].
  unfold query_endpoint, try_except, bind, requests_post, answer_vector, request_for,
    rtry, rbind, lift, ret, raise.
  destruct (post (world s) (post_request (full_url u p e) smilies)) as [[response|x] w].
  - destruct (negb (status_code response =? 200)); simpl; [reflexivity|].
    destruct (json response) as [j|x]; simpl.
    + destruct (_parse_response j (length smilies)) as [r|x]; simpl; [reflexivity|].
      destruct (is_RequestException x); reflexivity.
    + destruct (is_RequestException x); reflexivity.
  - simpl. destruct (is_RequestException x); reflexivity.
Qed.

Lemma query_endpoint_sent (smilies : list string) (scores : list (list float32))
    (ep : string * Z * string) (s : Net) :
  sent (snd (query_endpoint smilies scores ep s)) = sent s ++ [request_for smilies ep].
Proof.
  rewrite query_endpoint_spec. cbv zeta.
  destruct (post (world s) (request_for smilies ep)). reflexivity.
Qed.

(** The vectors already collected do not change what an endpoint gives. *)
Lemma for_endpoints_scores (eps : list (string * Z * string)) :
  forall (smilies : list string) (scores : list (list float32)) (s : Net),
  for_endpoints eps smilies scores s =
  match for_endpoints eps smilies [] s with
  | (Ok vs, s') => (Ok (scores ++ vs), s')
  | (Raise e, s') => (Raise e, s')
  end.
Proof.
  induction eps as [|ep rest IH]; intros smilies scores s; simpl.
  - unfold ret. now rewrite app_nil_r.
  - unfold bind. rewrite !query_endpoint_spec. cbv zeta.
    destruct (post (world s) (request_for smilies ep)) as [answer w].
    destruct (answer_vector smilies answer) as [v|x]; simpl; [|reflexivity].
    rewrite (IH smilies (scores ++ [v])), (IH smilies [v]).
    destruct (for_endpoints rest smilies [] _) as [[vs|x] s']; [|reflexivity].
    now rewrite <- app_assoc.
Qed.

Lemma for_endpoints_app (eps1 eps2 : list (string * Z * string)) :
  forall (smilies : list string) (scores : list (list float32)) (s : Net),
  for_endpoints (eps1 ++ eps2) smilies scores s =
  bind (for_endpoints eps1 smilies scores)
       (fun scores' => for_endpoints eps2 smilies scores') s.
Proof.
  induction eps1 as [|ep rest IH]; intros smilies scores s; simpl.
  - reflexivity.
  - unfold bind. destruct (query_endpoint smilies scores ep s) as [[scores'|x] s1].
    + rewrite IH. reflexivity.
    + reflexivity.
Qed.

(** The requests of a run are those of the endpoints reached, in order, and
    a run that returns reached them all and holds a vector of the length
    of the batch for each. *)
Lemma for_endpoints_run (eps : list (string * Z * string)) :
  forall (smilies : list string) (scores : list (list float32)) (s s' : Net)
         (r : result (list (list float32))),
  for_endpoints eps smilies scores s = (r, s') ->
  exists k : nat,
    (k <= length eps)%nat /\
    sent s' = sent s ++ map (request_for smilies) (take k eps) /\
    match r with
    | Ok rs =>
        k = length eps /\
        exists vs, rs = scores ++ vs /\ length vs = length eps /\
                   Forall (fun v => length v = length smilies) vs
    | Raise _ => (0 < k)%nat
    end.
Proof.
  induction eps as [|ep rest IH]; intros smilies scores s s' r; simpl.
  - unfold ret. intros [= <- <-]. exists 0%nat. simpl. rewrite !app_nil_r.
    repeat split; try lia. exists []. now rewrite app_nil_r.
  - unfold bind. rewrite query_endpoint_spec. cbv zeta.
    destruct (post (world s) (request_for smilies ep)) as [answer w].
    destruct (answer_vector smilies answer) as [v|x] eqn:Hv; simpl.
    + intros Hrest. destruct (IH _ _ _ _ _ Hrest) as (k & Hk & Hsent & Hr).
      exists (S k). simpl in Hsent. simpl. rewrite Hsent, <- app_assoc. simpl.
      repeat split; try lia.
      destruct r as [rs|x]; [|lia].
      destruct Hr as (-> & vs & -> & Hlen & Hall).
      split; [reflexivity|]. exists (v :: vs).
      rewrite <- app_assoc. simpl. repeat split; try lia.
      constructor; [eapply answer_vector_length; eassumption | assumption].
    + intros [= <- <-]. exists 1%nat. simpl. rewrite ?take_0.
      repeat split; lia.
Qed.

Lemma zip3_length {A B C : Type} (a : list A) : forall (b : list B) (c : list C),
  length (zip3 a b c) = (length a `min` (length b `min` length c))%nat.
Proof.
  induction a as [|x a IH]; intros [|y b] [|z c]; simpl; try lia.
  rewrite IH. lia.
Qed.

Lemma zip3_lookup {A B C : Type} (a : list A) :
  forall (b : list B) (c : list C) (i : nat) (x : A) (y : B) (z : C),
  zip3 a b c !! i = Some (x, y, z) <->
  a !! i = Some x /\ b !! i = Some y /\ c !! i = Some z.
Proof.
  induction a as [|x0 a IH]; intros [|y0 b] [|z0 c] i x y z; simpl;
    try (split; [discriminate | intros (H1 & H2 & H3); discriminate]);
    try (split; [discriminate | intros (H1 & H2 & H3); destruct i; discriminate]).
  destruct i as [|i]; simpl.
  - split; [intros [= -> -> ->]; auto | intros ([= ->] & [= ->] & [= ->]); reflexivity].
  - apply IH.
Qed.

Lemma or_default_unset {A : Type} (x : option (list A)) (d : list A) :
  unset x = true -> or_default x d = d.
Proof. destruct x as [[|a l]|]; simpl; congruence. Qed.

Lemma or_default_set {A : Type} (l d : list A) :
  l <> [] -> or_default (Some l) d = l.
Proof. destruct l; simpl; congruence. Qed.

Lemma contains_app (pre sub suf : string) : contains (pre +:+ sub +:+ suf) sub.
Proof. exists pre, suf. reflexivity. Qed.

Lemma string_app_assoc (a b c : string) : (a +:+ b) +:+ c = a +:+ b +:+ c.
Proof.
  induction a as [|x a IH]; [reflexivity|].
  change (String x ((a +:+ b) +:+ c) = String x (a +:+ b +:+ c)). now rewrite IH.
Qed.

Lemma string_app_nil_r (a : string) : a +:+ EmptyString = a.
Proof.
  induction a as [|c a IH]; [reflexivity|].
  change (String c (a +:+ EmptyString) = String c a). now rewrite IH.
Qed.

Lemma call_sent_single (self : SyntheticFeasibility) (ep : string * Z * string)
    (smilies : list string) (s : Net) :
  endpoints self = [ep] ->
  sent (snd (__call__ self smilies s)) = sent s ++ [request_for smilies ep].
Proof.
  intros Heps. unfold __call__. unfold bind at 1. rewrite Heps.
  cbn [for_endpoints]. unfold bind, ret.
  pose proof (query_endpoint_sent smilies [] ep s) as Hs.
  destruct (query_endpoint smilies [] ep s) as [[vs|x] s1]; exact Hs.
Qed.

(** * The claims *)

(** C1. A call of [score] that returns, on a batch of [N] molecules and a
    configuration of [E >= 1] endpoints (the three parameter lists all of
    length [E]), returns exactly [E] ScoreVectors, each of length exactly
    [N], whatever the servers answered: the network [post] and the state
    [s] the call starts in are arbitrary. *)
Theorem score_returns_E_vectors_of_length_N
    (params : Parameters) (urls : list string) (ports : list Z)
    (paths : list string) (E : nat) (smilies : list string) (s s' : Net)
    (results : ComponentResults) :
  server_url params = Some urls ->
  server_port params = Some ports ->
  server_endpoint params = Some paths ->
  length urls = E -> length ports = E -> length paths = E ->
  (1 <= E)%nat ->
  __call__ (__init__ params) smilies s = (Ok results, s') ->
  length (scores results) = E /\
  Forall (fun v => length v = length smilies) (scores results).
Proof.
  intros Hu Hp He Lu Lp Le HE. unfold __call__, bind, ret.
  destruct (for_endpoints _ smilies [] s) as [[vs|x] s1] eqn:Hrun; [|discriminate].
  intros [= <- <-]. simpl.
  destruct (for_endpoints_run _ _ _ _ _ _ Hrun) as (k & _ & _ & _ & vs' & Hvs & Hlen & Hall).
  simpl in Hvs. subst vs'. split; [|assumption].
  rewrite Hlen. unfold endpoints, __init__. simpl.
  rewrite zip3_length, Hu, Hp, He.
  rewrite !or_default_set by (intros ->; simpl in *; lia). lia.
Qed.

(** C2. When the POST to an endpoint raises a transport exception (any
    [RequestException]), the call does not raise because of it: the
    endpoint gets a vector of [len(batch)] NaNs at its position, the
    vectors of the endpoints before it are kept, and the endpoints after
    it are queried as they would be on their own, from the world the
    failed request left. *)
Theorem transport_failure_is_isolated
    (self : SyntheticFeasibility) (smilies : list string)
    (before after : list (string * Z * string)) (ep : string * Z * string)
    (s s1 : Net) (vs1 : list (list float32)) (k : request_exception) (w2 : World) :
  endpoints self = before ++ ep :: after ->
  for_endpoints before smilies [] s = (Ok vs1, s1) ->
  post (world s1) (request_for smilies ep) = (Raise (RequestException k), w2) ->
  __call__ self smilies s =
  match for_endpoints after smilies []
          {| world := w2; sent := sent s1 ++ [request_for smilies ep] |} with
  | (Ok vs2, s3) =>
      (Ok {| scores := vs1 ++ [replicate (length smilies) nan] ++ vs2 |}, s3)
  | (Raise x, s3) => (Raise x, s3)
  end.
Proof.
  intros Heps Hbefore Hpost. unfold __call__. unfold bind at 1.
  rewrite Heps, for_endpoints_app. unfold bind at 1. rewrite Hbefore.
  simpl for_endpoints. unfold bind at 1.
  rewrite query_endpoint_spec. cbv zeta. rewrite Hpost. simpl.
  rewrite for_endpoints_scores.
  destruct (for_endpoints after smilies [] _) as [[vs2|x] s3]; [|reflexivity].
  unfold ret. now rewrite <- app_assoc.
Qed.

(** C3. When an endpoint answers with a status other than 200, the call
    raises a [ValueError] whose message holds the status code, the reason
    phrase, the raw content and the text of the response; nothing catches
    it, so no ResultSet is returned, and the endpoints after it are not
    queried: the request to this endpoint is the last one sent. *)
Theorem non_200_status_aborts_the_call
    (self : SyntheticFeasibility) (smilies : list string)
    (before after : list (string * Z * string)) (ep : string * Z * string)
    (s s1 : Net) (vs1 : list (list float32)) (response : Response) (w2 : World) :
  endpoints self = before ++ ep :: after ->
  for_endpoints before smilies [] s = (Ok vs1, s1) ->
  post (world s1) (request_for smilies ep) = (Ok response, w2) ->
  status_code response <> 200 ->
  __call__ self smilies s =
    (Raise (ValueError (api_failed_message response)),
     {| world := w2; sent := sent s1 ++ [request_for smilies ep] |}) /\
  contains (api_failed_message response) (str_of_int (status_code response)) /\
  contains (api_failed_message response) (reason response) /\
  contains (api_failed_message response) (repr_bytes (content response)) /\
  contains (api_failed_message response) (text response).
Proof.
  intros Heps Hbefore Hpost Hstatus. split.
  - unfold __call__. unfold bind at 1.
    rewrite Heps, for_endpoints_app. unfold bind at 1. rewrite Hbefore.
    simpl for_endpoints. unfold bind at 1.
    rewrite query_endpoint_spec. cbv zeta. rewrite Hpost.
    unfold answer_vector, rtry, rbind.
    destruct (status_code response =? 200) eqn:E; [apply Z.eqb_eq in E; contradiction|].
    reflexivity.
  - unfold api_failed_message. repeat split.
    + eexists ("Synthetic feasibility API failed." +:+ newline +:+ "Status Code: "), _.
      reflexivity.
    + eexists ("Synthetic feasibility API failed." +:+ newline +:+ "Status Code: "
               +:+ str_of_int (status_code response) +:+ newline +:+ "Reason: ("), _.
      rewrite !string_app_assoc. reflexivity.
    + eexists ("Synthetic feasibility API failed." +:+ newline +:+ "Status Code: "
               +:+ str_of_int (status_code response) +:+ newline +:+ "Reason: ("
               +:+ reason response +:+ ")" +:+ newline +:+ "Response content: "), _.
      rewrite !string_app_assoc. reflexivity.
    + eexists ("Synthetic feasibility API failed." +:+ newline +:+ "Status Code: "
               +:+ str_of_int (status_code response) +:+ newline +:+ "Reason: ("
               +:+ reason response +:+ ")" +:+ newline +:+ "Response content: "
               +:+ repr_bytes (content response) +:+ newline +:+ "Response text: "),
              EmptyString.
      rewrite string_app_nil_r, !string_app_assoc. reflexivity.
Qed.

(** C4. The claim asks that an entry that is not a record leave its slot
    missing without failing the parse.  The code calls [get] on the entry
    before anything else, inside a [try] that catches [ValueError],
    [TypeError] and [KeyError] only: on the response [[5]] and a batch of
    one the [AttributeError] of the [int] leaves the parser, and so does
    the [OverflowError] of a prediction that is an [int] beyond the range
    of [float]. *)
Theorem entry_that_is_no_record_fails_the_parse :
  _parse_response (JList [JInt 5]) 1 = Raise AttributeError /\
  _parse_response (JList [JDict [("prediction", JInt (2 ^ 1024))]]) 1
  = Raise OverflowError.
Proof. split; vm_compute; reflexivity. Qed.

(** What of C4 the code does: a [dict] entry whose prediction is absent
    or [None], of a type [float] rejects, or a string that is no number,
    leaves the results as they are. *)
Lemma bad_prediction_keeps_the_slot (results : list float32) (i : nat)
    (items : list (string * Json)) :
  match dict_lookup "prediction" items with
  | None | Some JNull | Some (JList _) | Some (JDict _) => True
  | Some (JStr str) => float_of_str str = None
  | Some (JBool _) | Some (JInt _) | Some (JFloat _) => False
  end ->
  parse_entry results i (JDict items) = Ok results.
Proof.
  rewrite parse_entry_outcome, entry_outcome_dict.
  destruct (dict_lookup "prediction" items) as [[|b|z|f|str|l|d]|];
    simpl; try reflexivity; try contradiction.
  intros ->. reflexivity.
Qed.

(** C5. A response that is a list is read by position.  Entries from
    position [data_size] on are never looked at, so they change nothing;
    a parse that returns has exactly [data_size] slots, slot [i] holding
    what entry [i] gives ([slot_of]) and every slot beyond the response
    the missing value; and the parse returns whenever the entries it
    looks at are records. *)
Theorem list_response_is_read_by_position (entries : list Json) (data_size : nat) :
  _parse_response (JList entries) data_size
  = _parse_response (JList (take data_size entries)) data_size /\
  (forall results : list float32,
     _parse_response (JList entries) data_size = Ok results ->
     length results = data_size /\
     forall i : nat, (i < data_size)%nat ->
       results !! i = Some (match entries !! i with
                            | Some entry => slot_of entry
                            | None => nan
                            end)) /\
  (forallb is_record (take data_size entries) = true ->
   exists results : list float32,
     _parse_response (JList entries) data_size = Ok results).
Proof.
  rewrite !_parse_response_list. repeat split.
  - rewrite parse_loop_take, Nat.sub_0_r. reflexivity.
  - eapply parse_loop_lookup; [apply length_replicate | eassumption].
  - intros i Hi.
    destruct (parse_loop_lookup _ _ _ _ _ (length_replicate data_size nan) H)
      as [_ Hslots].
    rewrite (Hslots i Hi). destruct (decide (0 <= i)%nat); [|lia].
    rewrite Nat.sub_0_r. unfold np_full. rewrite lookup_replicate_2 by assumption.
    unfold slot_of. destruct (entries !! i) as [entry|]; simpl; [|reflexivity].
    destruct (entry_value entry); reflexivity.
  - intros Hrec. apply parse_loop_returns. now rewrite Nat.sub_0_r.
Qed.

(** C6. A response that is not a list gives the vector of [data_size]
    missing values, and no error. *)
Theorem non_list_response_is_all_missing (response_json : Json) (data_size : nat) :
  isinstance_list response_json = false ->
  _parse_response response_json data_size = Ok (replicate data_size nan) /\
  length (replicate data_size nan) = data_size.
Proof.
  intros H. split; [|apply length_replicate].
  unfold _parse_response. now rewrite H.
Qed.

(** C7. A field that is not set, [None] or an empty list, is replaced by
    its default of one element; with no field set the component has the
    one endpoint [http://localhost:5000/synthetic_feasibility_surrogate],
    and that is where a call sends its one request. *)
Theorem unset_fields_take_defaults (params : Parameters) :
  (unset (server_url params) = true ->
   server_urls (__init__ params) = ["http://localhost"]) /\
  (unset (server_port params) = true ->
   server_ports (__init__ params) = [5000]) /\
  (unset (server_endpoint params) = true ->
   server_endpoints (__init__ params) = ["synthetic_feasibility_surrogate"]) /\
  (unset (server_url params) = true ->
   unset (server_port params) = true ->
   unset (server_endpoint params) = true ->
   endpoints (__init__ params)
   = [("http://localhost", 5000, "synthetic_feasibility_surrogate")] /\
   number_of_endpoints (__init__ params) = 1%nat /\
   forall (smilies : list string) (s : Net),
     sent (snd (__call__ (__init__ params) smilies s))
     = sent s ++ [post_request "http://localhost:5000/synthetic_feasibility_surrogate"
                               smilies]).
Proof.
  assert (Heps : unset (server_url params) = true ->
                 unset (server_port params) = true ->
                 unset (server_endpoint params) = true ->
                 endpoints (__init__ params)
                 = [(DEFAULT_SERVER_URL, DEFAULT_SERVER_PORT, DEFAULT_SERVER_ENDPOINT)]).
  { intros Hu Hp He. unfold endpoints, __init__. cbn [server_urls server_ports server_endpoints].
    now rewrite !or_default_unset by assumption. }
  split; [|split; [|split]].
  - intros H. unfold __init__. cbn [server_urls]. now apply or_default_unset.
  - intros H. unfold __init__. cbn [server_ports]. now apply or_default_unset.
  - intros H. unfold __init__. cbn [server_endpoints]. now apply or_default_unset.
  - intros Hu Hp He. split; [exact (Heps Hu Hp He)|]. split.
    + unfold __init__. cbn [number_of_endpoints]. now rewrite or_default_unset.
    + intros smilies s.
      exact (call_sent_single _ _ smilies s (Heps Hu Hp He)).
Qed.

(** C8, as amended.  Construction is total, whatever the lengths of the
    lists.  The loop of a call runs over the positional zip of the three
    lists of the component, the lists after the defaults are put in (a
    field that is [None] or empty counts as its default of one element;
    three lists that are given and not empty are kept as they are): their
    number is the length of the shortest, triple [i] is made of the
    [i]-th elements, and a call that returns has sent one request and got
    one ScoreVector for each triple, in that order. *)
Theorem zip_truncates_to_the_shortest_list
    (params : Parameters) (smilies : list string) (s : Net) :
  length (endpoints (__init__ params))
  = (length (server_urls (__init__ params))
     `min` (length (server_ports (__init__ params))
            `min` length (server_endpoints (__init__ params))))%nat /\
  (forall (i : nat) (u : string) (p : Z) (e : string),
     endpoints (__init__ params) !! i = Some (u, p, e) <->
     server_urls (__init__ params) !! i = Some u /\
     server_ports (__init__ params) !! i = Some p /\
     server_endpoints (__init__ params) !! i = Some e) /\
  (forall (urls : list string) (ports : list Z) (paths : list string),
     server_url params = Some urls -> server_port params = Some ports ->
     server_endpoint params = Some paths ->
     urls <> [] -> ports <> [] -> paths <> [] ->
     endpoints (__init__ params) = zip3 urls ports paths) /\
  (forall (results : ComponentResults) (s' : Net),
     __call__ (__init__ params) smilies s = (Ok results, s') ->
     length (scores results) = length (endpoints (__init__ params)) /\
     sent s' = sent s ++ map (request_for smilies) (endpoints (__init__ params))).
Proof.
  split; [apply zip3_length|]. split; [intros; apply zip3_lookup|]. split.
  - intros urls ports paths Hu Hp He Nu Np Ne.
    unfold endpoints, __init__. cbn [server_urls server_ports server_endpoints].
    rewrite Hu, Hp, He. now rewrite !or_default_set by assumption.
  - intros results s'. unfold __call__, bind, ret.
    destruct (for_endpoints _ smilies [] s) as [[vs|x] s1] eqn:Hrun; [|discriminate].
    intros [= <- <-]. cbn [scores].
    destruct (for_endpoints_run _ _ _ _ _ _ Hrun)
      as (k & _ & Hsent & -> & vs' & Hvs & Hlen & _).
    simpl in Hvs. subst vs'. split; [exact Hlen|].
    now rewrite firstn_all in Hsent.
Qed.

(** C9. Every turn of the loop sends exactly one request: a POST to
    [{url}:{port}/{path}] with the JSON body [{smiles: batch}], the one
    header [Content-Type: application/json] and a timeout of 30.  So a
    call that returns has sent exactly one such request to every endpoint,
    in order, and a call that raises has sent one to every endpoint up to
    the one it raised at. *)
Theorem one_post_per_endpoint
    (self : SyntheticFeasibility) (smilies : list string) (s : Net) :
  (forall (collected : list (list float32)) (u : string) (p : Z) (e : string)
          (s0 : Net),
     sent (snd (query_endpoint smilies collected (u, p, e) s0))
     = sent s0 ++
       [{| method := "POST";
           url := u +:+ ":" +:+ str_of_int p +:+ "/" +:+ e;
           json_body := JDict [("smiles", JList (map JStr smilies))];
           headers := [("Content-Type", "application/json")];
           timeout := 30 |}]) /\
  (forall (results : ComponentResults) (s' : Net),
     __call__ self smilies s = (Ok results, s') ->
     sent s' = sent s ++ map (request_for smilies) (endpoints self)) /\
  (forall (x : exn) (s' : Net),
     __call__ self smilies s = (Raise x, s') ->
     exists k : nat,
       (0 < k <= length (endpoints self))%nat /\
       sent s' = sent s ++ map (request_for smilies) (take k (endpoints self))).
Proof.
  split; [intros; apply query_endpoint_sent|].
  unfold __call__, bind, ret.
  destruct (for_endpoints (endpoints self) smilies [] s) as [[vs|x] s1] eqn:Hrun;
    destruct (for_endpoints_run _ _ _ _ _ _ Hrun) as (k & Hk & Hsent & Hr).
  - split; [|discriminate]. intros results s' [= <- <-].
    destruct Hr as (-> & _). now rewrite firstn_all in Hsent.
  - split; [discriminate|]. intros x' s' [= <- <-]. exists k. auto.
Qed.

Lemma entry_outcome_stored (entry : Json) (v : float32) :
  entry_outcome entry = Ok (Some v) -> exists x : float64, v = float32_of_float64 x.
Proof.
  unfold entry_outcome, rtry, rbind.
  destruct (get entry "prediction") as [p|x].
  - destruct (is_None p); simpl; [discriminate|].
    destruct (float p) as [y|x]; [intros [= <-]; eauto|].
    destruct (is_ValueError_TypeError_KeyError x); discriminate.
  - destruct (is_ValueError_TypeError_KeyError x); discriminate.
Qed.

Lemma parse_loop_float32 (entries : list Json) :
  forall (i data_size : nat) (results r : list float32),
  Forall (fun x => is_float32 x = true) results ->
  parse_loop entries i data_size results = Ok r ->
  Forall (fun x => is_float32 x = true) r.
Proof.
  induction entries as [|entry rest IH]; intros i n results r Hall; simpl.
  - now intros [= <-].
  - destruct (n <=? i)%nat; [now intros [= <-]|].
    rewrite parse_entry_outcome. unfold rbind.
    destruct (entry_outcome entry) as [[v|]|] eqn:Ho; [| |discriminate].
    + apply IH. apply Forall_insert; [assumption|].
      destruct (entry_outcome_stored _ _ Ho) as [x ->].
      apply float32_of_float64_valid.
    + now apply IH.
Qed.

Lemma np_full_nan_float32 (n : nat) :
  Forall (fun x => is_float32 x = true) (np_full n nan).
Proof. apply Forall_replicate. reflexivity. Qed.

Lemma _parse_response_float32 (response_json : Json) (data_size : nat)
    (results : list float32) :
  _parse_response response_json data_size = Ok results ->
  Forall (fun x => is_float32 x = true) results.
Proof.
  unfold _parse_response.
  destruct response_json; simpl; try (intros [= <-]; apply np_full_nan_float32).
  apply parse_loop_float32, np_full_nan_float32.
Qed.

Lemma answer_vector_float32 (smilies : list string) (answer : result Response)
    (v : list float32) :
  answer_vector smilies answer = Ok v -> Forall (fun x => is_float32 x = true) v.
Proof.
  unfold answer_vector, rtry, rbind.
  destruct answer as [response|x].
  - destruct (negb (status_code response =? 200)); simpl; [discriminate|].
    destruct (json response) as [j|x].
    + destruct (_parse_response j (length smilies)) as [r|x] eqn:Hp.
      * intros [= <-]. eapply _parse_response_float32; eassumption.
      * rewrite (_parse_response_raises _ _ _ Hp). discriminate.
    + destruct (is_RequestException x); [|discriminate].
      intros [= <-]. apply np_full_nan_float32.
  - destruct (is_RequestException x); [|discriminate].
    intros [= <-]. apply np_full_nan_float32.
Qed.

Lemma for_endpoints_float32 (eps : list (string * Z * string)) :
  forall (smilies : list string) (collected rs : list (list float32)) (s s' : Net),
  Forall (Forall (fun x => is_float32 x = true)) collected ->
  for_endpoints eps smilies collected s = (Ok rs, s') ->
  Forall (Forall (fun x => is_float32 x = true)) rs.
Proof.
  induction eps as [|ep rest IH]; intros smilies collected rs s s' Hall; simpl.
  - unfold ret. now intros [= <- <-].
  - unfold bind. rewrite query_endpoint_spec. cbv zeta.
    destruct (post (world s) (request_for smilies ep)) as [answer w].
    destruct (answer_vector smilies answer) as [v|x] eqn:Hv; simpl; [|discriminate].
    apply IH. apply Forall_app. split; [assumption|].
    constructor; [|constructor]. eapply answer_vector_float32; eassumption.
Qed.

(** C10. Every ScoreVector holds binary32 values: those the parser
    returns, the vector of the transport-failure fallback, and so every
    vector of a call that returns.  A prediction that [float] accepts is
    stored rounded to binary32; the binary64 value nearest to
    0.5760770598287769 is stored as 9664969 * 2^-24, which read back is
    another number.  The missing value is the NaN of the format. *)
Theorem score_vectors_hold_float32_values :
  (forall (response_json : Json) (data_size : nat) (results : list float32),
     _parse_response response_json data_size = Ok results ->
     Forall (fun x => is_float32 x = true) results) /\
  (forall n : nat,
     np_full n nan = replicate n S754_nan /\
     Forall (fun x => is_float32 x = true) (np_full n nan)) /\
  (forall (self : SyntheticFeasibility) (smilies : list string) (s s' : Net)
          (results : ComponentResults),
     __call__ self smilies s = (Ok results, s') ->
     Forall (Forall (fun x => is_float32 x = true)) (scores results)) /\
  (forall (entries : list Json) (data_size : nat) (results : list float32)
          (i : nat) (items : list (string * Json)) (prediction : Json) (x : float64),
     _parse_response (JList entries) data_size = Ok results ->
     (i < data_size)%nat ->
     entries !! i = Some (JDict items) ->
     dict_lookup "prediction" items = Some prediction ->
     float prediction = Ok x ->
     results !! i = Some (float32_of_float64 x)) /\
  is_float64 prediction_example = true /\
  2 * Z.abs (5188840863963141 * 10 ^ 16 - 5760770598287769 * 2 ^ 53) <= 10 ^ 16 /\
  float32_of_float64 prediction_example = S754_finite false 9664969 (-24) /\
  float64_of_float32 (float32_of_float64 prediction_example) <> prediction_example /\
  SFclassify 24 nan = FloatClass.NaN /\
  is_float32 nan = true.
Proof.
  split; [apply _parse_response_float32|].
  split; [intros n; split; [reflexivity | apply np_full_nan_float32]|].
  split.
  { intros self smilies s s' results. unfold __call__, bind, ret.
    destruct (for_endpoints _ smilies [] s) as [[vs|x] s1] eqn:Hrun; [|discriminate].
    intros [= <- <-]. cbn [scores].
    eapply for_endpoints_float32; [constructor | eassumption]. }
  split.
  { intros entries n results i items prediction x Hparse Hi Hentry Hp Hx.
    rewrite _parse_response_list in Hparse.
    destruct (parse_loop_lookup _ _ _ _ _ (length_replicate n nan) Hparse)
      as [_ Hslots].
    rewrite (Hslots i Hi). destruct (decide (0 <= i)%nat); [|lia].
    rewrite Nat.sub_0_r, Hentry. simpl.
    unfold entry_value. rewrite entry_outcome_dict, Hp, Hx.
    destruct prediction; try reflexivity. discriminate. }
  repeat split; try (vm_compute; reflexivity).
  - vm_compute. discriminate.
  - vm_compute. discriminate.
Qed.

(** * Further properties of the code *)

(** ** The parser, entry by entry *)

(** A prediction [float] does not take: none, [None], a list, an object,
    or a string that is no number. *)
Definition unusable_prediction (items : list (string * Json)) : bool :=
  match dict_lookup "prediction" items with
  | None | Some JNull | Some (JList _) | Some (JDict _) => true
  | Some (JStr str) =>
      match float_of_str str with
      | None => true
      | Some _ => false
      end
  | Some (JBool _) | Some (JInt _) | Some (JFloat _) => false
  end.

(** X1. A [dict] entry whose prediction is absent, [None], of a type
    [float] rejects, or a string that is no number, never makes the parse
    raise, and its slot is the missing value in the vector returned. *)
Theorem unusable_prediction_leaves_slot_missing
    (entries : list Json) (data_size i : nat) (items : list (string * Json)) :
  entries !! i = Some (JDict items) ->
  unusable_prediction items = true ->
  is_record (JDict items) = true /\
  forall results : list float32,
    _parse_response (JList entries) data_size = Ok results ->
    (i < data_size)%nat ->
    results !! i = Some nan.
Proof.
  intros Hentry Hbad.
  assert (Ho : entry_outcome (JDict items) = Ok None).
  { rewrite entry_outcome_dict. unfold unusable_prediction in Hbad.
    destruct (dict_lookup "prediction" items) as [[|b|z|f|str|l|d]|];
      simpl; try reflexivity; try discriminate.
    destruct (float_of_str str); [discriminate | reflexivity]. }
  split; [unfold is_record; now rewrite Ho|].
  intros results Hparse Hi. rewrite _parse_response_list in Hparse.
  destruct (parse_loop_lookup _ _ _ _ _ (length_replicate data_size nan) Hparse)
    as [_ Hslots].
  refine (eq_trans (Hslots i Hi) _). destruct (decide (0 <= i)%nat); [|lia].
  rewrite Nat.sub_0_r, Hentry. simpl. unfold entry_value. rewrite Ho.
  unfold np_full. now apply lookup_replicate_2.
Qed.

Lemma parse_loop_records (entries : list Json) :
  forall (i data_size : nat) (results r : list float32),
  parse_loop entries i data_size results = Ok r ->
  forallb is_record (take (data_size - i) entries) = true.
Proof.
  induction entries as [|entry rest IH]; intros i n results r; simpl.
  - now rewrite take_nil.
  - destruct (n <=? i)%nat eqn:Hni.
    + apply Nat.leb_le in Hni. now replace (n - i)%nat with 0%nat by lia.
    + apply Nat.leb_gt in Hni. replace (n - i)%nat with (S (n - S i)) by lia.
      rewrite parse_entry_outcome. unfold rbind, is_record at 1. simpl.
      destruct (entry_outcome entry) as [o|]; [|discriminate].
      intros H. simpl. eapply IH; eassumption.
Qed.

Lemma float_of_int_small (b : bool) :
  exists x : float64, float_of_int (if b then 1 else 0) = Ok x.
Proof. destruct b; vm_compute; eauto. Qed.

Lemma is_record_false (entry : Json) :
  is_record entry = false <->
  (forall items, entry <> JDict items) \/
  (exists (items : list (string * Json)) (z : Z),
     entry = JDict items /\
     dict_lookup "prediction" items = Some (JInt z) /\
     float_of_int z = Raise OverflowError).
Proof.
  unfold is_record. split.
  - destruct entry as [|b|z|f|str|l|items];
      try (intros _; left; discriminate).
    rewrite entry_outcome_dict.
    destruct (dict_lookup "prediction" items) as [[|b|z|f|str|l|d]|] eqn:Hp;
      simpl; try discriminate.
    + destruct (float_of_int_small b) as [x ->]. discriminate.
    + destruct (float_of_int z) as [x|e] eqn:Hz; [discriminate|].
      intros _. right. exists items, z.
      rewrite (float_of_int_raises _ _ Hz) in Hz. auto.
    + destruct (float_of_str str); discriminate.
  - intros [Hnd | (items & z & -> & Hp & Hz)].
    + now rewrite entry_outcome_not_dict.
    + rewrite entry_outcome_dict, Hp. simpl. now rewrite Hz.
Qed.

(** X2. The parse of a list returns exactly when each of its first
    [data_size] entries is a record; an entry is no record exactly when
    it is not a [dict], or its prediction is an [int] beyond the range of
    [float]; and nothing but [AttributeError] and [OverflowError] ever
    leaves the parser. *)
Theorem parse_returns_iff_entries_are_records (entries : list Json) (data_size : nat) :
  ((exists results : list float32,
      _parse_response (JList entries) data_size = Ok results) <->
   forallb is_record (take data_size entries) = true) /\
  (forall entry : Json,
     is_record entry = false <->
     (forall items, entry <> JDict items) \/
     (exists (items : list (string * Json)) (z : Z),
        entry = JDict items /\
        dict_lookup "prediction" items = Some (JInt z) /\
        float_of_int z = Raise OverflowError)) /\
  (forall (response_json : Json) (e : exn),
     _parse_response response_json data_size = Raise e ->
     e = AttributeError \/ e = OverflowError).
Proof.
  split; [|split].
  - rewrite _parse_response_list. split.
    + intros [results H]. apply parse_loop_records in H. now rewrite Nat.sub_0_r in H.
    + intros H. apply parse_loop_returns. now rewrite Nat.sub_0_r.
  - apply is_record_false.
  - intros response_json e. unfold _parse_response.
    destruct response_json; simpl; try discriminate. apply parse_loop_raises.
Qed.

(** X6. With an empty batch the parser returns the empty vector for
    every body: no entry is looked at, so none can make it raise. *)
Theorem empty_batch_parses_to_the_empty_vector (response_json : Json) :
  _parse_response response_json 0 = Ok [].
Proof.
  unfold _parse_response. destruct response_json as [| | | | |entries|]; try reflexivity.
  destruct entries; reflexivity.
Qed.

Lemma parse_entry_get (results : list float32) (i : nat) (entry1 entry2 : Json) :
  get entry1 "prediction" = get entry2 "prediction" ->
  parse_entry results i entry1 = parse_entry results i entry2.
Proof. unfold parse_entry. now intros ->. Qed.

(** X8. The parser reads nothing of an entry but its prediction: two
    responses whose entries agree, position by position, on
    [get("prediction")] parse alike.  The [smiles] of an entry is never
    compared with the molecule of its slot. *)
Theorem parse_reads_only_the_predictions
    (entries1 entries2 : list Json) (data_size : nat) :
  Forall2 (fun entry1 entry2 => get entry1 "prediction" = get entry2 "prediction")
          entries1 entries2 ->
  _parse_response (JList entries1) data_size
  = _parse_response (JList entries2) data_size.
Proof.
  intros H. rewrite !_parse_response_list.
  generalize (np_full data_size nan) as results. generalize 0%nat as i.
  induction H as [|entry1 entry2 rest1 rest2 Hget _ IH]; intros i results; simpl.
  - reflexivity.
  - destruct (data_size <=? i)%nat; [reflexivity|].
    rewrite (parse_entry_get results i entry1 entry2 Hget). unfold rbind.
    destruct (parse_entry results i entry2); [apply IH | reflexivity].
Qed.

(** ** The call, endpoint by endpoint *)

(** X3. A 200 answer whose body [response.json()] cannot read, so that it
    raises a [RequestException], is handled as a transport failure is: the
    endpoint gets a vector of NaNs, and the call goes on with the
    endpoints after it. *)
Theorem unreadable_body_is_isolated
    (self : SyntheticFeasibility) (smilies : list string)
    (before after : list (string * Z * string)) (ep : string * Z * string)
    (s s1 : Net) (vs1 : list (list float32)) (response : Response) (x : exn)
    (w2 : World) :
  endpoints self = before ++ ep :: after ->
  for_endpoints before smilies [] s = (Ok vs1, s1) ->
  post (world s1) (request_for smilies ep) = (Ok response, w2) ->
  status_code response = 200 ->
  json response = Raise x ->
  is_RequestException x = true ->
  __call__ self smilies s =
  match for_endpoints after smilies []
          {| world := w2; sent := sent s1 ++ [request_for smilies ep] |} with
  | (Ok vs2, s3) =>
      (Ok {| scores := vs1 ++ [replicate (length smilies) nan] ++ vs2 |}, s3)
  | (Raise x', s3) => (Raise x', s3)
  end.
Proof.
  intros Heps Hbefore Hpost Hstatus Hjson Hx. unfold __call__. unfold bind at 1.
  rewrite Heps, for_endpoints_app. unfold bind at 1. rewrite Hbefore.
  simpl for_endpoints. unfold bind at 1.
  rewrite query_endpoint_spec. cbv zeta. rewrite Hpost.
  unfold answer_vector, rtry, rbind. rewrite Hstatus, Hjson. simpl. rewrite Hx.
  rewrite for_endpoints_scores.
  destruct (for_endpoints after smilies [] _) as [[vs2|x'] s3]; [|reflexivity].
  unfold ret. now rewrite <- app_assoc.
Qed.

Lemma zip3_app {A B C : Type} (a1 : list A) :
  forall (b1 : list B) (c1 : list C) (a2 : list A) (b2 : list B) (c2 : list C),
  length a1 = length b1 -> length a1 = length c1 ->
  zip3 (a1 ++ a2) (b1 ++ b2) (c1 ++ c2) = zip3 a1 b1 c1 ++ zip3 a2 b2 c2.
Proof.
  induction a1 as [|x a1 IH]; intros [|y b1] [|z c1] a2 b2 c2; simpl;
    try discriminate.
  - reflexivity.
  - intros [= Hb] [= Hc]. now rewrite IH.
Qed.

(** X4. A component whose lists are those of a first component, all of
    one length, followed by those of a second scores as the first and
    then the second do, the second from the world the first left: the
    vectors are those of the first followed by those of the second, and
    a raise of the first keeps the second from running. *)
Theorem calls_compose
    (self self1 self2 : SyntheticFeasibility) (smilies : list string) (s : Net) :
  server_urls self = server_urls self1 ++ server_urls self2 ->
  server_ports self = server_ports self1 ++ server_ports self2 ->
  server_endpoints self = server_endpoints self1 ++ server_endpoints self2 ->
  length (server_urls self1) = length (server_ports self1) ->
  length (server_urls self1) = length (server_endpoints self1) ->
  __call__ self smilies s =
  match __call__ self1 smilies s with
  | (Ok results1, s1) =>
      match __call__ self2 smilies s1 with
      | (Ok results2, s2) =>
          (Ok {| scores := scores results1 ++ scores results2 |}, s2)
      | (Raise x, s2) => (Raise x, s2)
      end
  | (Raise x, s1) => (Raise x, s1)
  end.
Proof.
  intros Hu Hp He Lp Le. unfold __call__, bind, ret, endpoints.
  rewrite Hu, Hp, He, (zip3_app _ _ _ _ _ _ Lp Le), for_endpoints_app.
  unfold bind.
  destruct (for_endpoints (zip3 (server_urls self1) _ _) smilies [] s)
    as [[vs1|x] s1]; [|reflexivity].
  rewrite for_endpoints_scores.
  destruct (for_endpoints (zip3 (server_urls self2) _ _) smilies [] s1)
    as [[vs2|x] s2]; reflexivity.
Qed.



Lemma or_default_nonempty {A : Type} (x : option (list A)) (d : A) :
  (1 <= length (or_default x [d]))%nat.
Proof. destruct x as [[|a l]|]; simpl; lia. Qed.

(** X7. Whatever the parameters, the component has at least one
    endpoint.  [number_of_endpoints] is the length of the list of URLs: it
    is never less than the number of endpoints a call runs over, and it
    is more when the list of ports or the list of paths is shorter than
    the list of URLs. *)
Theorem component_has_an_endpoint (params : Parameters) :
  (1 <= length (endpoints (__init__ params)))%nat /\
  (length (endpoints (__init__ params))
   <= number_of_endpoints (__init__ params))%nat /\
  number_of_endpoints (__init__ params) = length (server_urls (__init__ params)) /\
  (length (endpoints (__init__ params)) < number_of_endpoints (__init__ params) <->
   length (server_ports (__init__ params)) < length (server_urls (__init__ params)) \/
   length (server_endpoints (__init__ params)) < length (server_urls (__init__ params)))%nat.
Proof.
  unfold endpoints. rewrite zip3_length.
  unfold __init__. cbn [server_urls server_ports server_endpoints number_of_endpoints].
  pose proof (or_default_nonempty (server_url params) DEFAULT_SERVER_URL).
  pose proof (or_default_nonempty (server_port params) DEFAULT_SERVER_PORT).
  pose proof (or_default_nonempty (server_endpoint params) DEFAULT_SERVER_ENDPOINT).
  repeat split; lia.
Qed.

Lemma answer_vector_raises (smilies : list string) (answer : result Response)
    (x : exn) :
  answer_vector smilies answer = Raise x -> is_RequestException x = false.
Proof.
  unfold answer_vector, rtry, rbind.
  destruct answer as [response|y].
  - destruct (negb (status_code response =? 200)); simpl; [now intros [= <-]|].
    destruct (json response) as [j|y].
    + destruct (_parse_response j (length smilies)) as [r|y] eqn:Hp; [discriminate|].
      rewrite (_parse_response_raises _ _ _ Hp). intros [= <-].
      exact (_parse_response_raises _ _ _ Hp).
    + destruct (is_RequestException y) eqn:Hy; [discriminate | now intros [= <-]].
  - destruct (is_RequestException y) eqn:Hy; [discriminate | now intros [= <-]].
Qed.

Lemma for_endpoints_raises (eps : list (string * Z * string)) :
  forall (smilies : list string) (collected : list (list float32)) (s s' : Net)
         (x : exn),
  for_endpoints eps smilies collected s = (Raise x, s') ->
  is_RequestException x = false.
Proof.
  induction eps as [|ep rest IH]; intros smilies collected s s' x; simpl.
  - discriminate.
  - unfold bind. rewrite query_endpoint_spec. cbv zeta.
    destruct (post (world s) (request_for smilies ep)) as [answer w].
    destruct (answer_vector smilies answer) as [v|y] eqn:Hv; simpl.
    + apply IH.
    + intros [= <- <-]. eapply answer_vector_raises; eassumption.
Qed.

(** X9. No [RequestException] ever leaves a call: whatever the transport
    or [response.json()] raises of that class ends as a vector of NaNs,
    so an exception a caller sees is of another class. *)
Theorem no_RequestException_leaves_a_call
    (self : SyntheticFeasibility) (smilies : list string) (s s' : Net) (x : exn) :
  __call__ self smilies s = (Raise x, s') ->
  is_RequestException x = false.
Proof.
  unfold __call__, bind, ret.
  destruct (for_endpoints (endpoints self) smilies [] s) as [[vs|y] s1] eqn:Hrun;
    [discriminate|].
  intros [= <- <-]. eapply for_endpoints_raises; eassumption.
Qed.

(** ** Rounding: what is kept and what is lost *)

Section RoundingEdges.
Variables prec emax : Z.
Hypothesis prec_pos : 0 < prec.

Lemma iter_pos_Pos_iter {A : Type} (f : A -> A) (p : positive) :
  forall x : A, SpecFloat.iter_pos f p x = Pos.iter f x p.
Proof.
  induction p as [p IH|p IH|]; intros x; simpl.
  - rewrite !IH, !Pos.iter_swap. reflexivity.
  - rewrite !IH. reflexivity.
  - reflexivity.
Qed.

(** Shifting out the zeros a left shift put in loses nothing. *)
Lemma shr_of_shl_exact (m d : positive) :
  SpecFloat.iter_pos shr_1 d
    {| shr_m := Zpos (Pos.iter xO m d); shr_r := false; shr_s := false |}
  = {| shr_m := Zpos m; shr_r := false; shr_s := false |}.
Proof.
  rewrite iter_pos_Pos_iter. revert m.
  induction d as [|d IH] using Pos.peano_ind; intros m.
  - reflexivity.
  - rewrite (Pos.iter_succ_r d _ shr_1), (Pos.iter_succ d _ xO). apply IH.
Qed.

(** Rounding a value that is already of the format gives it back. *)
Lemma binary_round_aux_canonical (s : bool) (m : positive) (e : Z) :
  bounded prec emax m e = true ->
  binary_round_aux prec emax s (Zpos m) e loc_Exact = S754_finite s m e.
Proof.
  unfold bounded, canonical_mantissa. intros [Hc Hb]%andb_prop.
  apply Z.eqb_eq in Hc.
  unfold binary_round_aux, shr_fexp. simpl Zdigits2. rewrite Hc, Z.sub_diag.
  simpl. rewrite Hc, Z.sub_diag. simpl. now rewrite Hb.
Qed.

Lemma binary_round_canonical (s : bool) (m : positive) (e : Z) :
  bounded prec emax m e = true ->
  binary_round prec emax s m e = S754_finite s m e.
Proof.
  intros H. unfold binary_round, shl_align.
  assert (Hc : fexp prec emax (Z.pos (digits2_pos m) + e) = e).
  { unfold bounded, canonical_mantissa in H. apply andb_prop in H as [Hc _].
    now apply Z.eqb_eq in Hc. }
  rewrite Hc, Z.sub_diag. now apply binary_round_aux_canonical.
Qed.

(** A value beyond the range of the format rounds to an infinity. *)
Lemma binary_round_overflow (s : bool) (m : positive) (e : Z) :
  3 <= 2 * emax ->
  emax < Zpos (digits2_pos m) + e ->
  binary_round prec emax s m e = S754_infinity s.
Proof.
  intros Hemax Hbig.
  assert (Haux : forall (mz : positive) (ez : Z),
            Zpos (digits2_pos mz) + ez = Zpos (digits2_pos m) + e ->
            ez <= fexp prec emax (Zpos (digits2_pos mz) + ez) ->
            binary_round_aux prec emax s (Zpos mz) ez loc_Exact = S754_infinity s).
  { intros mz ez HD Hez. unfold binary_round_aux.
    assert (Hm : 0 <= Zpos mz) by lia.
    destruct (shr_fexp_spec prec emax (Zpos mz) ez loc_Exact Hm) as [Hm1 He1].
    destruct (shr_fexp prec emax (Zpos mz) ez loc_Exact) as [r1 e1].
    simpl fst in *; simpl snd in *.
    set (m2 := round_nearest_even (shr_m r1) (loc_of_shr_record r1)).
    assert (Hm1nn : 0 <= shr_m r1) by (rewrite Hm1; apply Z.shiftr_nonneg; exact Hm).
    assert (Hm2 : m2 = shr_m r1 \/ m2 = shr_m r1 + 1) by apply round_nearest_even_range.
    assert (Hm2nn : 0 <= m2) by lia.
    assert (Hd1 : Zdigits2 (shr_m r1)
                  = Z.max 0 (Zdigits2 (Zpos mz)
                             - Z.max 0 (fexp prec emax (Zdigits2 (Zpos mz) + ez) - ez))).
    { rewrite Hm1. apply Zdigits2_shiftr; lia. }
    assert (Hd2 : Zdigits2 (shr_m r1) <= Zdigits2 m2 <= Zdigits2 (shr_m r1) + 1).
    { destruct Hm2 as [-> | ->]; [lia | apply Zdigits2_succ; assumption]. }
    destruct (shr_fexp_spec prec emax m2 e1 loc_Exact Hm2nn) as [Hm3 He3].
    destruct (shr_fexp prec emax m2 e1 loc_Exact) as [r3 e3].
    simpl fst in *; simpl snd in *.
    assert (Hd3 : Zdigits2 (shr_m r3)
                  = Z.max 0 (Zdigits2 m2
                             - Z.max 0 (fexp prec emax (Zdigits2 m2 + e1) - e1))).
    { rewrite Hm3. apply Zdigits2_shiftr; lia. }
    simpl Zdigits2 in Hd1, Hez, He1.
    assert (Hpos3 : 0 < Zdigits2 (shr_m r3)) by (unfold fexp, emin in *; lia).
    assert (Hnn3 : 0 <= shr_m r3) by (rewrite Hm3; apply Z.shiftr_nonneg; exact Hm2nn).
    destruct (shr_m r3) as [|p|p] eqn:E3; simpl in Hpos3; try lia.
    assert (He3' : emax - prec < e3) by (unfold fexp, emin in *; lia).
    destruct (e3 <=? emax - prec) eqn:Eb; [apply Z.leb_le in Eb; lia | reflexivity]. }
  unfold binary_round, shl_align.
  destruct (fexp prec emax (Z.pos (digits2_pos m) + e) - e) as [|d|d] eqn:E;
    apply Haux; try lia.
  - rewrite Zdigits2_iter_xO. lia.
  - rewrite Zdigits2_iter_xO. unfold fexp, emin in *; lia.
Qed.

End RoundingEdges.

Lemma float64_of_float32_finite (s : bool) (m : positive) (e : Z) :
  bounded 24 128 m e = true ->
  float64_of_float32 (S754_finite s m e)
  = S754_finite s (Pos.iter xO m (Z.to_pos (53 - Zpos (digits2_pos m))))
                (Zpos (digits2_pos m) + e - 53).
Proof.
  unfold bounded, canonical_mantissa. intros [Hc Hb]%andb_prop.
  apply Z.eqb_eq in Hc. apply Z.leb_le in Hb.
  assert (Hd : 0 < Zpos (digits2_pos m) <= 24) by (unfold fexp, emin in Hc; lia).
  unfold float64_of_float32, binary_round, shl_align.
  assert (HF : fexp 53 1024 (Z.pos (digits2_pos m) + e) = Z.pos (digits2_pos m) + e - 53)
    by (unfold fexp, emin in *; lia).
  rewrite HF.
  destruct (Z.pos (digits2_pos m) + e - 53 - e) as [|d|d] eqn:E; try lia.
  replace (Z.to_pos (53 - Z.pos (digits2_pos m))) with d by lia.
  apply binary_round_aux_canonical.
  unfold bounded, canonical_mantissa.
  rewrite Zdigits2_iter_xO.
  replace (Z.pos (digits2_pos m) + Z.pos d + (Z.pos (digits2_pos m) + e - 53))
    with (Z.pos (digits2_pos m) + e) by lia.
  rewrite HF, Z.eqb_refl. simpl. apply Z.leb_le. unfold fexp, emin in Hc. lia.
Qed.

(** X10. A value of the result array read back as a Python [float] is a
    binary64 value, and stored again it is the value it was: a prediction
    that a binary32 number holds exactly is stored exactly. *)
Theorem float32_value_is_stored_exactly (v : float32) :
  is_float32 v = true ->
  float32_of_float64 (float64_of_float32 v) = v /\
  is_float64 (float64_of_float32 v) = true.
Proof.
  intros Hv. split.
  2:{ destruct v as [s|s| |s m e]; try reflexivity.
      apply binary_round_valid. lia. }
  destruct v as [s|s| |s m e]; try reflexivity.
  unfold is_float32 in Hv. simpl in Hv.
  rewrite (float64_of_float32_finite s m e Hv).
  pose proof Hv as Hv'.
  unfold bounded, canonical_mantissa in Hv'. apply andb_prop in Hv' as [Hc Hb].
  apply Z.eqb_eq in Hc. apply Z.leb_le in Hb.
  assert (Hd : 0 < Zpos (digits2_pos m) <= 24) by (unfold fexp, emin in Hc; lia).
  set (d := Z.to_pos (53 - Z.pos (digits2_pos m))).
  assert (Hdd : Zpos d = 53 - Z.pos (digits2_pos m)) by (unfold d; lia).
  unfold float32_of_float64, binary_round, shl_align.
  rewrite Zdigits2_iter_xO.
  replace (Z.pos (digits2_pos m) + Z.pos d + (Z.pos (digits2_pos m) + e - 53))
    with (Z.pos (digits2_pos m) + e) by lia.
  rewrite Hc.
  replace (e - (Z.pos (digits2_pos m) + e - 53)) with (Zpos d) by lia.
  unfold binary_round_aux, shr_fexp. simpl Zdigits2. rewrite Zdigits2_iter_xO.
  replace (Z.pos (digits2_pos m) + Z.pos d + (Z.pos (digits2_pos m) + e - 53))
    with (Z.pos (digits2_pos m) + e) by lia.
  rewrite Hc.
  replace (e - (Z.pos (digits2_pos m) + e - 53)) with (Zpos d) by lia.
  simpl shr. rewrite shr_of_shl_exact. simpl.
  replace (Z.pos (digits2_pos m) + e - 53 + Z.pos d) with e by lia.
  rewrite Hc, Z.sub_diag. simpl.
  apply Z.leb_le in Hb. now rewrite Hb.
Qed.

Lemma parse_stores_rounded
    (entries : list Json) (data_size : nat) (results : list float32) (i : nat)
    (items : list (string * Json)) (prediction : Json) (x : float64) :
  _parse_response (JList entries) data_size = Ok results ->
  (i < data_size)%nat ->
  entries !! i = Some (JDict items) ->
  dict_lookup "prediction" items = Some prediction ->
  float prediction = Ok x ->
  results !! i = Some (float32_of_float64 x).
Proof.
  intros Hparse Hi Hentry Hp Hx.
  rewrite _parse_response_list in Hparse.
  destruct (parse_loop_lookup _ _ _ _ _ (length_replicate data_size nan) Hparse)
    as [_ Hslots].
  rewrite (Hslots i Hi). destruct (decide (0 <= i)%nat); [|lia].
  rewrite Nat.sub_0_r, Hentry. simpl.
  unfold entry_value. rewrite entry_outcome_dict, Hp, Hx.
  destruct prediction; try reflexivity. discriminate.
Qed.

(** X11. A prediction of magnitude 2^128 or more, which no finite
    binary32 value holds, neither raises nor is lost as a missing value:
    its slot is the infinity of its sign. *)
Theorem prediction_beyond_float32_is_infinite
    (entries : list Json) (data_size : nat) (results : list float32) (i : nat)
    (items : list (string * Json)) (sign : bool) (m : positive) (e : Z) :
  128 < Zpos (digits2_pos m) + e ->
  _parse_response (JList entries) data_size = Ok results ->
  (i < data_size)%nat ->
  entries !! i = Some (JDict items) ->
  dict_lookup "prediction" items = Some (JFloat (S754_finite sign m e)) ->
  float32_of_float64 (S754_finite sign m e) = S754_infinity sign /\
  results !! i = Some (S754_infinity sign).
Proof.
  intros Hbig Hparse Hi Hentry Hp.
  assert (Hinf : float32_of_float64 (S754_finite sign m e) = S754_infinity sign).
  { apply binary_round_overflow; lia. }
  split; [exact Hinf|]. rewrite <- Hinf.
  eapply parse_stores_rounded; try eassumption. reflexivity.
Qed.

(** ** Whole responses and whole runs *)

Lemma parse_loop_predictions (entries : list Json) (predictions : list float64) :
  Forall2 (fun entry f =>
             exists items : list (string * Json),
               entry = JDict items /\
               dict_lookup "prediction" items = Some (JFloat f))
          entries predictions ->
  forall filled : list float32,
  parse_loop entries (length filled) (length filled + length predictions)
    (filled ++ replicate (length predictions) nan)
  = Ok (filled ++ map float32_of_float64 predictions).
Proof.
  induction 1 as [|entry f rest fs (items & -> & Hp) _ IH]; intros filled; simpl.
  - reflexivity.
  - rewrite parse_entry_outcome, entry_outcome_dict, Hp. simpl.
    rewrite insert_app_r_alt by lia. rewrite Nat.sub_diag. simpl.
    specialize (IH (filled ++ [float32_of_float64 f])).
    rewrite length_app in IH. simpl in IH.
    replace (length filled + 1)%nat with (S (length filled)) in IH by lia.
    rewrite <- !app_assoc in IH.
    match goal with
    | |- (if ?c then _ else _) = _ =>
        assert (Hc : c = false) by (apply Nat.leb_gt; lia); rewrite Hc
    end.
    rewrite Nat.add_succ_r. exact IH.
Qed.

(** X13. A response of one record per molecule, each with a prediction
    that is a [float], gives the vector of these predictions, each
    rounded to binary32, in the order of the response. *)
Theorem well_formed_response_is_stored_in_order
    (entries : list Json) (predictions : list float64) :
  Forall2 (fun entry f =>
             exists items : list (string * Json),
               entry = JDict items /\
               dict_lookup "prediction" items = Some (JFloat f))
          entries predictions ->
  _parse_response (JList entries) (length predictions)
  = Ok (map float32_of_float64 predictions).
Proof.
  intros H. rewrite _parse_response_list.
  exact (parse_loop_predictions entries predictions H []).
Qed.

Lemma for_endpoints_unreachable (eps : list (string * Z * string)) :
  (forall (w : World) (req : Request),
     exists (k : request_exception) (w' : World),
       post w req = (Raise (RequestException k), w')) ->
  forall (smilies : list string) (collected : list (list float32)) (s : Net),
  fst (for_endpoints eps smilies collected s)
  = Ok (collected ++ replicate (length eps) (replicate (length smilies) nan)).
Proof.
  intros Hpost. induction eps as [|ep rest IH]; intros smilies collected s; simpl.
  - now rewrite app_nil_r.
  - unfold bind. rewrite query_endpoint_spec. cbv zeta.
    destruct (Hpost (world s) (request_for smilies ep)) as (k & w' & ->). simpl.
    rewrite IH, <- app_assoc. reflexivity.
Qed.

(** X12. When no server can be reached, every POST raising a
    [RequestException], the call does not raise: it returns, for each
    endpoint, a vector of [len(batch)] missing values. *)
Theorem unreachable_servers_give_missing_values
    (self : SyntheticFeasibility) (smilies : list string) (s : Net) :
  (forall (w : World) (req : Request),
     exists (k : request_exception) (w' : World),
       post w req = (Raise (RequestException k), w')) ->
  fst (__call__ self smilies s)
  = Ok {| scores := replicate (length (endpoints self))
                              (replicate (length smilies) nan) |}.
Proof.
  intros Hpost. unfold __call__, bind, ret.
  pose proof (for_endpoints_unreachable (endpoints self) Hpost smilies [] s) as H.
  destruct (for_endpoints (endpoints self) smilies [] s) as [[vs|x] s1];
    simpl in H; [|discriminate].
  injection H as ->. reflexivity.
Qed.

End Component.

(** * The claims on the example scenarios *)

(** C1 on two endpoints and a batch of one: [a] cannot be reached, [b]
    scores the batch, and the call returns two vectors of length one. *)
Lemma score_returns_E_vectors_of_length_N_witness :
  length (scores {| scores := [[nan]; [S754_finite false 9664969 (-24)]] |}) = 2%nat /\
  Forall (fun v : list float32 => length v = length ["C1=CC=CC=C1"])
         (scores {| scores := [[nan]; [S754_finite false 9664969 (-24)]] |}).
Proof.
  apply (score_returns_E_vectors_of_length_N nan_only_float_of_str unit
           (table_post example_network) endpoints_a_b
           ["http://a"; "http://b"] [8000; 8001] ["score"; "score"] 2
           ["C1=CC=CC=C1"] {| world := tt; sent := [] |}
           (snd (__call__ nan_only_float_of_str unit (table_post example_network)
                   (__init__ endpoints_a_b) ["C1=CC=CC=C1"]
                   {| world := tt; sent := [] |})));
    try reflexivity.
  lia.
Defined.

(** C2 on the same scenario: the endpoint [a] that cannot be reached gets
    a vector of NaNs, and the vector of [b] is the one [b] gives. *)
Lemma transport_failure_is_isolated_witness :
  fst (__call__ nan_only_float_of_str unit (table_post example_network)
         (__init__ endpoints_a_b) ["C1=CC=CC=C1"] {| world := tt; sent := [] |})
  = Ok {| scores := [[nan]; [S754_finite false 9664969 (-24)]] |}.
Proof.
  rewrite (transport_failure_is_isolated nan_only_float_of_str unit
             (table_post example_network) (__init__ endpoints_a_b) ["C1=CC=CC=C1"]
             [] [("http://b", 8001, "score")] ("http://a", 8000, "score")
             {| world := tt; sent := [] |} {| world := tt; sent := [] |} []
             ConnectionError tt eq_refl eq_refl eq_refl).
  reflexivity.
Defined.

(** C3 on three endpoints: [a] cannot be reached, [c] answers 500, and
    the call raises with the request to [c] as the last one sent; [b] is
    not queried. *)
Lemma non_200_status_aborts_the_call_witness :
  __call__ nan_only_float_of_str unit (table_post example_network)
    (__init__ endpoints_a_c_b) ["C1=CC=CC=C1"] {| world := tt; sent := [] |}
  = (Raise (ValueError (api_failed_message error_500)),
     {| world := tt;
        sent := [request_for ["C1=CC=CC=C1"] ("http://a", 8000, "score");
                 request_for ["C1=CC=CC=C1"] ("http://c", 8002, "score")] |}) /\
  contains (api_failed_message error_500) "500" /\
  contains (api_failed_message error_500) "Internal Server Error" /\
  contains (api_failed_message error_500) "b'oops'" /\
  contains (api_failed_message error_500) "oops".
Proof.
  apply (non_200_status_aborts_the_call nan_only_float_of_str unit
           (table_post example_network) (__init__ endpoints_a_c_b) ["C1=CC=CC=C1"]
           [("http://a", 8000, "score")] [("http://b", 8001, "score")]
           ("http://c", 8002, "score")
           {| world := tt; sent := [] |}
           {| world := tt;
              sent := [request_for ["C1=CC=CC=C1"] ("http://a", 8000, "score")] |}
           [[nan]] error_500 tt eq_refl eq_refl eq_refl).
  discriminate.
Defined.

(** C5 on a batch of three and a response of two entries: the first two
    slots are filled, the third is missing; and on a batch of two and a
    response of three entries, the third of which is no record: it is
    ignored. *)
Lemma list_response_is_read_by_position_witness :
  (exists results : list float32,
     _parse_response nan_only_float_of_str
       (JList [JDict [("prediction", JFloat prediction_example)];
               JDict [("prediction", JInt 1)]]) 3 = Ok results /\
     length results = 3%nat /\
     results !! 0%nat = Some (S754_finite false 9664969 (-24)) /\
     results !! 1%nat = Some (S754_finite false 8388608 (-23)) /\
     results !! 2%nat = Some nan) /\
  _parse_response nan_only_float_of_str
    (JList [JDict [("prediction", JFloat prediction_example)];
            JDict [("prediction", JInt 1)]; JInt 5]) 2
  = _parse_response nan_only_float_of_str
      (JList [JDict [("prediction", JFloat prediction_example)];
              JDict [("prediction", JInt 1)]]) 2.
Proof.
  split.
  - destruct (list_response_is_read_by_position nan_only_float_of_str
                [JDict [("prediction", JFloat prediction_example)];
                 JDict [("prediction", JInt 1)]] 3) as (_ & Hslots & Hreturns).
    destruct (Hreturns eq_refl) as [results Hresults].
    destruct (Hslots results Hresults) as [Hlen Hslot].
    exists results. split; [exact Hresults|]. split; [exact Hlen|].
    split; [|split].
    + exact (Hslot 0%nat ltac:(lia)).
    + exact (Hslot 1%nat ltac:(lia)).
    + exact (Hslot 2%nat ltac:(lia)).
  - exact (proj1 (list_response_is_read_by_position nan_only_float_of_str
                    [JDict [("prediction", JFloat prediction_example)];
                     JDict [("prediction", JInt 1)]; JInt 5] 2)).
Defined.

(** C6 on a JSON object and a batch of two. *)
Lemma non_list_response_is_all_missing_witness :
  _parse_response nan_only_float_of_str (JDict [("error", JStr "no model")]) 2
  = Ok [nan; nan] /\
  length (replicate 2 nan) = 2%nat.
Proof.
  exact (non_list_response_is_all_missing nan_only_float_of_str
           (JDict [("error", JStr "no model")]) 2 eq_refl).
Defined.

(** C7 with nothing configured. *)
Lemma unset_fields_take_defaults_witness :
  endpoints (__init__ nothing_configured)
  = [("http://localhost", 5000, "synthetic_feasibility_surrogate")] /\
  number_of_endpoints (__init__ nothing_configured) = 1%nat /\
  forall (smilies : list string) (s : Net unit),
    sent unit (snd (__call__ nan_only_float_of_str unit (table_post example_network)
                      (__init__ nothing_configured) smilies s))
    = sent unit s ++
      [post_request "http://localhost:5000/synthetic_feasibility_surrogate" smilies].
Proof.
  exact (proj2 (proj2 (proj2
           (unset_fields_take_defaults nan_only_float_of_str unit
              (table_post example_network) nothing_configured)))
           eq_refl eq_refl eq_refl).
Defined.

(** The claim C8 as it is written fails on lists of lengths 2, 0 and 2:
    the empty list of ports is replaced by its default, so the call runs
    over one endpoint, sends one request and returns one ScoreVector,
    where the shortest of the three lists given has no element. *)
Lemma empty_list_is_not_the_shortest :
  fst (__call__ nan_only_float_of_str unit (table_post example_network)
         (__init__ empty_port_list) ["C1=CC=CC=C1"] {| world := tt; sent := [] |})
  = Ok {| scores := [[nan]] |} /\
  sent unit (snd (__call__ nan_only_float_of_str unit (table_post example_network)
                    (__init__ empty_port_list) ["C1=CC=CC=C1"]
                    {| world := tt; sent := [] |}))
  = [post_request "http://a:5000/x" ["C1=CC=CC=C1"]] /\
  length (endpoints (__init__ empty_port_list))
  <> (length ["http://a"; "http://b"]
      `min` (length (@nil Z) `min` length ["x"; "y"]))%nat.
Proof.
  split; [reflexivity|]. split; [reflexivity|]. discriminate.
Qed.

(** C8, as amended, on lists of lengths 2, 1 and 3: one endpoint, the
    first element of each list, one request and one ScoreVector. *)
Lemma zip_truncates_to_the_shortest_list_witness :
  length (endpoints (__init__ mismatched_lists)) = 1%nat /\
  endpoints (__init__ mismatched_lists) = [("http://b", 8001, "score")] /\
  length (scores {| scores := [[S754_finite false 9664969 (-24)]] |}) = 1%nat /\
  sent unit (snd (__call__ nan_only_float_of_str unit (table_post example_network)
                    (__init__ mismatched_lists) ["C1=CC=CC=C1"]
                    {| world := tt; sent := [] |}))
  = [request_for ["C1=CC=CC=C1"] ("http://b", 8001, "score")].
Proof.
  destruct (zip_truncates_to_the_shortest_list nan_only_float_of_str unit
              (table_post example_network) mismatched_lists ["C1=CC=CC=C1"]
              {| world := tt; sent := [] |}) as (Hlen & _ & Hzip & Hcall).
  split; [exact Hlen|].
  split.
  - exact (Hzip ["http://b"; "http://a"] [8001] ["score"; "score"; "score"]
             eq_refl eq_refl eq_refl ltac:(discriminate) ltac:(discriminate)
             ltac:(discriminate)).
  - exact (Hcall {| scores := [[S754_finite false 9664969 (-24)]] |} _ eq_refl).
Defined.

(** C9 on two endpoints: the call returns, and has sent one POST to each,
    in order. *)
Lemma one_post_per_endpoint_witness :
  sent unit (snd (__call__ nan_only_float_of_str unit (table_post example_network)
                    (__init__ endpoints_a_b) ["C1=CC=CC=C1"]
                    {| world := tt; sent := [] |}))
  = [{| method := "POST"; url := "http://a:8000/score";
        json_body := JDict [("smiles", JList [JStr "C1=CC=CC=C1"])];
        headers := [("Content-Type", "application/json")]; timeout := 30 |};
     {| method := "POST"; url := "http://b:8001/score";
        json_body := JDict [("smiles", JList [JStr "C1=CC=CC=C1"])];
        headers := [("Content-Type", "application/json")]; timeout := 30 |}].
Proof.
  exact (proj1 (proj2
           (one_post_per_endpoint nan_only_float_of_str unit
              (table_post example_network) (__init__ endpoints_a_b)
              ["C1=CC=CC=C1"] {| world := tt; sent := [] |}))
           {| scores := [[nan]; [S754_finite false 9664969 (-24)]] |} _ eq_refl).
Defined.

(** C10 on the body of the docstring: the prediction 0.5760770598287769
    is stored as the binary32 value 9664969 * 2^-24. *)
Lemma score_vectors_hold_float32_values_witness :
  Forall (fun x : spec_float => is_float32 x = true)
         [S754_finite false 9664969 (-24); nan] /\
  [S754_finite false 9664969 (-24); nan] !! 0%nat
  = Some (float32_of_float64 prediction_example).
Proof.
  destruct (score_vectors_hold_float32_values nan_only_float_of_str unit
              (table_post example_network)) as (Hvalid & _ & _ & Hstored & _).
  split.
  - exact (Hvalid docstring_body 2%nat [S754_finite false 9664969 (-24); nan] eq_refl).
  - exact (Hstored
             [JDict [("smiles", JStr "C1=CC=CC=C1"); ("prediction", JFloat prediction_example)]]
             2%nat [S754_finite false 9664969 (-24); nan] 0%nat
             [("smiles", JStr "C1=CC=CC=C1"); ("prediction", JFloat prediction_example)]
             (JFloat prediction_example) prediction_example
             eq_refl ltac:(lia) eq_refl eq_refl eq_refl).
Defined.

(** * The further properties on example scenarios *)

(** X1 on a response whose second entry has a prediction that is no
    number. *)
Lemma unusable_prediction_leaves_slot_missing_witness :
  is_record nan_only_float_of_str (JDict [("prediction", JStr "n/a")]) = true /\
  [S754_finite false 8388608 (-23); nan] !! 1%nat = Some nan.
Proof.
  destruct (unusable_prediction_leaves_slot_missing nan_only_float_of_str
              [JDict [("prediction", JInt 1)]; JDict [("prediction", JStr "n/a")]]
              2 1 [("prediction", JStr "n/a")] eq_refl eq_refl) as [Hrec Hslot].
  split; [exact Hrec|].
  exact (Hslot [S754_finite false 8388608 (-23); nan] eq_refl ltac:(lia)).
Defined.

(** X3 on two endpoints, the first of which answers 200 with a body that
    is not JSON. *)
Lemma unreadable_body_is_isolated_witness :
  fst (__call__ nan_only_float_of_str unit (table_post unreadable_network)
         (__init__ endpoints_d_b) ["C1=CC=CC=C1"] {| world := tt; sent := [] |})
  = Ok {| scores := [[nan]; [S754_finite false 9664969 (-24)]] |}.
Proof.
  rewrite (unreadable_body_is_isolated nan_only_float_of_str unit
             (table_post unreadable_network) (__init__ endpoints_d_b)
             ["C1=CC=CC=C1"]
             [] [("http://b", 8001, "score")] ("http://d", 8003, "score")
             {| world := tt; sent := [] |} {| world := tt; sent := [] |} []
             unreadable_response (RequestException JSONDecodeError) tt
             eq_refl eq_refl eq_refl eq_refl eq_refl eq_refl).
  reflexivity.
Defined.

(** X4: the component of [a] and [b] scores as the component of [a] and
    then the component of [b]. *)
Lemma calls_compose_witness :
  fst (__call__ nan_only_float_of_str unit (table_post example_network)
         (__init__ endpoints_a_b) ["C1=CC=CC=C1"] {| world := tt; sent := [] |})
  = Ok {| scores := [[nan]] ++ [[S754_finite false 9664969 (-24)]] |}.
Proof.
  rewrite (calls_compose nan_only_float_of_str unit (table_post example_network)
             (__init__ endpoints_a_b)
             (__init__ endpoint_a) (__init__ endpoint_b)
             ["C1=CC=CC=C1"] {| world := tt; sent := [] |}
             eq_refl eq_refl eq_refl eq_refl eq_refl).
  reflexivity.
Defined.



(** X8 on two responses that differ in the [smiles] of their entry. *)
Lemma parse_reads_only_the_predictions_witness :
  _parse_response nan_only_float_of_str
    (JList [JDict [("smiles", JStr "CCO"); ("prediction", JInt 1)]]) 1
  = _parse_response nan_only_float_of_str
      (JList [JDict [("smiles", JStr "C1=CC=CC=C1"); ("prediction", JInt 1)]]) 1.
Proof.
  apply (parse_reads_only_the_predictions nan_only_float_of_str).
  constructor; [reflexivity | constructor].
Defined.

(** X9 on the call that the 500 of [c] makes raise. *)
Lemma no_RequestException_leaves_a_call_witness :
  is_RequestException (ValueError (api_failed_message error_500)) = false.
Proof.
  apply (no_RequestException_leaves_a_call nan_only_float_of_str unit
           (table_post example_network) (__init__ endpoints_a_c_b) ["C1=CC=CC=C1"]
           {| world := tt; sent := [] |}
           (snd (__call__ nan_only_float_of_str unit (table_post example_network)
                   (__init__ endpoints_a_c_b) ["C1=CC=CC=C1"]
                   {| world := tt; sent := [] |}))).
  reflexivity.
Defined.

(** X10 on the binary32 value 9664969 * 2^-24. *)
Lemma float32_value_is_stored_exactly_witness :
  float32_of_float64 (float64_of_float32 (S754_finite false 9664969 (-24)))
  = S754_finite false 9664969 (-24) /\
  is_float64 (float64_of_float32 (S754_finite false 9664969 (-24))) = true.
Proof.
  exact (float32_value_is_stored_exactly (S754_finite false 9664969 (-24)) eq_refl).
Defined.

(** X11 on the prediction 2^200. *)
Lemma prediction_beyond_float32_is_infinite_witness :
  float32_of_float64 (S754_finite false 4503599627370496 148) = S754_infinity false /\
  [S754_infinity false] !! 0%nat = Some (S754_infinity false).
Proof.
  apply (prediction_beyond_float32_is_infinite nan_only_float_of_str
           [JDict [("prediction", JFloat (S754_finite false 4503599627370496 148))]]
           1 [S754_infinity false] 0
           [("prediction", JFloat (S754_finite false 4503599627370496 148))]
           false 4503599627370496 148);
    try reflexivity; try lia.
Defined.

(** X12 on a network where nothing can be reached, two endpoints and a
    batch of two. *)
Lemma unreachable_servers_give_missing_values_witness :
  fst (__call__ nan_only_float_of_str unit (table_post [])
         (__init__ endpoints_a_b) ["C1=CC=CC=C1"; "CCO"] {| world := tt; sent := [] |})
  = Ok {| scores := [[nan; nan]; [nan; nan]] |}.
Proof.
  apply (unreachable_servers_give_missing_values nan_only_float_of_str unit
           (table_post []) (__init__ endpoints_a_b) ["C1=CC=CC=C1"; "CCO"]
           {| world := tt; sent := [] |}).
  intros w req. exists ConnectionError, w. reflexivity.
Defined.

(** X13 on the body of the docstring of [_parse_response], with its two
    predictions 0.5760770598287769 and 0.5720232508128327. *)
Lemma well_formed_response_is_stored_in_order_witness :
  _parse_response nan_only_float_of_str
    (JList [JDict [("smiles", JStr "C1=CC=CC=C1");
                   ("prediction", JFloat prediction_example)];
            JDict [("smiles", JStr "CCO");
                   ("prediction", JFloat (S754_finite false 5152327398415866 (-53)))]])
    2
  = Ok [S754_finite false 9664969 (-24); S754_finite false 9596958 (-24)].
Proof.
  apply (well_formed_response_is_stored_in_order nan_only_float_of_str _
           [prediction_example; S754_finite false 5152327398415866 (-53)]).
  repeat constructor; eexists; split; reflexivity.
Defined.
